(** * Schedule parser (src/app.js): layout inference and table reconstruction

    A shallow embedding of the parsing core of [src/app.js] and the
    properties of its specification.

    Conventions of the embedding.
    - A JavaScript string is a [string]; its characters are read as the code
      units U+0000..U+00FF.  [toUpperCase] is the ASCII case mapping, which is
      all the source relies on: every constant it compares an upper-cased
      string with is plain ASCII.  Outside ASCII the runtime maps more
      characters, so a statement that upper-cases an arbitrary text is made
      for ASCII texts.
    - Page coordinates ([x], [y]) are integers ([Z]); subtraction, absolute
      value, comparison and the 2-unit rounding of [groupByLine] are exact.
    - A [Map] whose iteration order matters is an association list in
      insertion order; the [codes] object of an employee is a [gmap] from
      property names to codes; the [Set] of shifts is a [gset].
    - [null] is [None]; a test for truthiness is written out where the
      source makes one. *)

From stdpp Require Import gmap strings list pretty.
From Stdlib Require Import Ascii ZArith Lia Sorted.

Open Scope Z_scope.

(* ===================================================================== *)
(** ** Characters and the regular-expression character classes           *)
(* ===================================================================== *)

Module Chr.

Definition code (c : ascii) : N := N_of_ascii c.

Definition between (lo hi : N) (c : ascii) : bool :=
  ((lo <=? code c) && (code c <=? hi))%N.

(** [\d] *)
Definition is_digit (c : ascii) : bool := between 48 57 c.
(** [[A-Z]], [[a-z]], [[A-Za-z]] *)
Definition is_upper (c : ascii) : bool := between 65 90 c.
Definition is_lower (c : ascii) : bool := between 97 122 c.
Definition is_alpha (c : ascii) : bool := is_upper c || is_lower c.
(** [\w], used by [\b] *)
Definition is_word (c : ascii) : bool :=
  is_alpha c || is_digit c || (code c =? 95)%N.
(** Line terminators below U+0100: LF and CR ([.] excludes them). *)
Definition is_line_term (c : ascii) : bool :=
  ((code c =? 10) || (code c =? 13))%N.
(** [\s] and the characters removed by [trim], below U+0100:
    TAB, LF, VT, FF, CR, SPACE and NBSP. *)
Definition is_space (c : ascii) : bool :=
  between 9 13 c || ((code c =? 32) || (code c =? 160))%N.

Definition to_upper (c : ascii) : ascii :=
  if is_lower c then ascii_of_N (code c - 32) else c.
Definition to_lower (c : ascii) : ascii :=
  if is_upper c then ascii_of_N (code c + 32) else c.

(** Equality of characters under the [i] flag. *)
Definition eq_ci (a b : ascii) : bool :=
  bool_decide (to_upper a = to_upper b).

(** The class of [looksLikeEmployeeName], as the bytes of the source file
    spell it: [A-Z], [a-z] and ranges that together cover U+00C4..U+221A
    (the accented letters of the file were re-encoded, which turned the
    three ranges into ranges ending at U+221A). *)
Definition is_name_letter (c : ascii) : bool :=
  is_alpha c || (196 <=? code c)%N.

End Chr.

(* ===================================================================== *)
(** ** String primitives of the JavaScript runtime                       *)
(* ===================================================================== *)

Module Str.

Fixpoint all (p : ascii -> bool) (s : string) : bool :=
  match s with
  | EmptyString => true
  | String c r => p c && all p r
  end.

Fixpoint any (p : ascii -> bool) (s : string) : bool :=
  match s with
  | EmptyString => false
  | String c r => p c || any p r
  end.

Fixpoint map (f : ascii -> ascii) (s : string) : string :=
  match s with
  | EmptyString => EmptyString
  | String c r => String (f c) (map f r)
  end.

Definition is_empty (s : string) : bool :=
  match s with EmptyString => true | _ => false end.

Definition toUpperCase : string -> string := map Chr.to_upper.
Definition toLowerCase : string -> string := map Chr.to_lower.

Fixpoint skip_ws (s : string) : string :=
  match s with
  | EmptyString => EmptyString
  | String c r => if Chr.is_space c then skip_ws r else s
  end.

Definition trimStart : string -> string := skip_ws.

Fixpoint trimEnd (s : string) : string :=
  match s with
  | EmptyString => EmptyString
  | String c r =>
      let r' := trimEnd r in
      if Chr.is_space c && is_empty r' then EmptyString else String c r'
  end.

Definition trim (s : string) : string := trimEnd (trimStart s).

(** [s.replace(/\s+/g, " ")]: every maximal run of white space becomes one
    space.  [in_run] tells that the previous character was white space. *)
Fixpoint collapse_from (in_run : bool) (s : string) : string :=
  match s with
  | EmptyString => EmptyString
  | String c r =>
      if Chr.is_space c
      then if in_run then collapse_from true r
           else String " "%char (collapse_from true r)
      else String c (collapse_from false r)
  end.

Definition collapse_ws : string -> string := collapse_from false.

Fixpoint drop (n : nat) (s : string) : string :=
  match n, s with
  | O, _ => s
  | S _, EmptyString => EmptyString
  | S n', String _ r => drop n' r
  end.

Fixpoint take (n : nat) (s : string) : string :=
  match n, s with
  | O, _ => EmptyString
  | S _, EmptyString => EmptyString
  | S n', String c r => String c (take n' r)
  end.

(** [s.startsWith(p)] *)
Fixpoint startsWith (p s : string) : bool :=
  match p, s with
  | EmptyString, _ => true
  | String _ _, EmptyString => false
  | String a p', String b s' => bool_decide (a = b) && startsWith p' s'
  end.

(** A literal [p] matched at the start of [s] under the [i] flag. *)
Fixpoint startsWith_ci (p s : string) : bool :=
  match p, s with
  | EmptyString, _ => true
  | String _ _, EmptyString => false
  | String a p', String b s' => Chr.eq_ci a b && startsWith_ci p' s'
  end.

(** [s.includes(p)] *)
Fixpoint includes (p s : string) : bool :=
  startsWith p s ||
  match s with
  | EmptyString => false
  | String _ r => includes p r
  end.

(** [parts.join(" ")] *)
Fixpoint join_sp (parts : list string) : string :=
  match parts with
  | [] => EmptyString
  | [p] => p
  | p :: rest => p +:+ String " "%char (join_sp rest)
  end.

(** [Number(s)] on a string of decimal digits. *)
Definition digit_val (c : ascii) : Z := Z.of_N (Chr.code c) - 48.

Fixpoint number_from (acc : Z) (s : string) : Z :=
  match s with
  | EmptyString => acc
  | String c r => number_from (10 * acc + digit_val c) r
  end.

Definition Number : string -> Z := number_from 0.

End Str.

(* ===================================================================== *)
(** ** The regular expressions of the source                             *)
(* ===================================================================== *)

Module Re.

(** [/^\d{1,2}$/] *)
Definition day_token (s : string) : bool :=
  match s with
  | String a EmptyString => Chr.is_digit a
  | String a (String b EmptyString) => Chr.is_digit a && Chr.is_digit b
  | _ => false
  end.

(** The tail [\s*(.+)$] of [/^SHIFT\s+(.+)$/i], with the priorities of a
    backtracking matcher: the greedy [\s*] first tries to take one more
    white-space character, and only gives it back when the rest cannot be
    matched.  [(.+)$] needs a non-empty rest without line terminators. *)
Definition dot_plus_end (s : string) : option string :=
  if negb (Str.is_empty s) && Str.all (fun c => negb (Chr.is_line_term c)) s
  then Some s else None.

Fixpoint shift_tail (s : string) : option string :=
  match s with
  | EmptyString => None
  | String c r =>
      if Chr.is_space c
      then match shift_tail r with
           | Some cap => Some cap
           | None => dot_plus_end s
           end
      else dot_plus_end s
  end.

(** [t.match(/^SHIFT\s+(.+)$/i)]: the first capture group, if it matches. *)
Definition shift_match (t : string) : option string :=
  if Str.startsWith_ci "SHIFT" t
  then match Str.drop 5 t with
       | String c r => if Chr.is_space c then shift_tail r else None
       | EmptyString => None
       end
  else None.

(** [(\s+\d)] once: at least one white-space character, then a digit;
    returns what follows. *)
Definition ws_digit (s : string) : option string :=
  match s with
  | String c r =>
      if Chr.is_space c
      then match Str.skip_ws r with
           | String d r' => if Chr.is_digit d then Some r' else None
           | EmptyString => None
           end
      else None
  | EmptyString => None
  end.

Fixpoint ws_digit_times (n : nat) (s : string) : bool :=
  match n with
  | O => true
  | S n' => match ws_digit s with
            | Some r => ws_digit_times n' r
            | None => false
            end
  end.

(** [/^\d(\s+\d){5,}/] *)
Definition digit_run (t : string) : bool :=
  match t with
  | String d r => Chr.is_digit d && ws_digit_times 5 r
  | EmptyString => false
  end.

(** [/^W\b/i] for a literal word [W] of letters. *)
Definition word_prefix_ci (w t : string) : bool :=
  Str.startsWith_ci w t &&
  match Str.drop (String.length w) t with
  | EmptyString => true
  | String c _ => negb (Chr.is_word c)
  end.

(** [(\d{1,2}|fe)\s*$] under the [i] flag. *)
Definition tail_token (s : string) : bool :=
  match s with
  | String a r =>
      (Chr.is_digit a &&
       (Str.all Chr.is_space r ||
        match r with
        | String b r' => Chr.is_digit b && Str.all Chr.is_space r'
        | EmptyString => false
        end))
      ||
      (Chr.eq_ci a "f"%char &&
       match r with
       | String b r' => Chr.eq_ci b "e"%char && Str.all Chr.is_space r'
       | EmptyString => false
       end)
  | EmptyString => false
  end.

(** [\s+(\d{1,2}|fe)\s*$] matched at the start of [s]. *)
Fixpoint trailing_at (s : string) : bool :=
  match s with
  | String c r => Chr.is_space c && (trailing_at r || tail_token r)
  | EmptyString => false
  end.

(** [t.replace(/\s+(\d{1,2}|fe)\s*$/i, "")]: the leftmost position where
    the expression matches; the match runs to the end of the string, so
    what is left is the text before that position. *)
Fixpoint strip_trailing (t : string) : string :=
  if trailing_at t then EmptyString
  else match t with
       | EmptyString => EmptyString
       | String c r => String c (strip_trailing r)
       end.

(** Does [/\s+(\d{1,2}|fe)\s*$/i] match somewhere in [t]? *)
Fixpoint has_trailing (t : string) : bool :=
  trailing_at t ||
  match t with
  | EmptyString => false
  | String _ r => has_trailing r
  end.

Definition month_names : list string :=
  ["January"; "February"; "March"; "April"; "May"; "June"; "July";
   "August"; "September"; "October"; "November"; "December"].

(** [/^(JANUARY|...|DECEMBER)$/i] *)
Definition month_name_only (t : string) : bool :=
  existsb (fun m => bool_decide (Str.toUpperCase t = Str.toUpperCase m))
          month_names.

(** [/^[A-Za-z]{1,6}\d{0,3}$/]: at most six letters can be taken, so the
    letters are the whole leading run, and the rest is up to three digits. *)
Fixpoint letters_then_digits (nl : nat) (s : string) {struct s} : bool :=
  match s with
  | EmptyString => true
  | String c r =>
      if Chr.is_alpha c
      then match nl with
           | O => false
           | S nl' => letters_then_digits nl' r
           end
      else Str.all Chr.is_digit s && (String.length s <=? 3)%nat
  end.

Definition alnum_code (t : string) : bool :=
  match t with
  | String c r => Chr.is_alpha c && letters_then_digits 5 r
  | EmptyString => false
  end.

(** [/^[A-Za-z]{2,6}$/] *)
Definition alpha_code (t : string) : bool :=
  Str.all Chr.is_alpha t &&
  (2 <=? String.length t)%nat && (String.length t <=? 6)%nat.

(** [\s+(\d{4})] after a month name: the greedy [\s+] takes the whole
    white-space run (a shorter run would leave white space where a digit
    is required); returns the four digits. *)
Definition ws_year (s : string) : option string :=
  match s with
  | String c r =>
      if Chr.is_space c
      then let y := Str.skip_ws r in
           if (String.length (Str.take 4 y) =? 4)%nat
              && Str.all Chr.is_digit (Str.take 4 y)
           then Some (Str.take 4 y) else None
      else None
  | EmptyString => None
  end.

(** One alternative [name\b\s+(\d{4})] tried at the start of [s]. *)
Definition month_alt (s name : string) : option (string * string) :=
  if word_prefix_ci name s
  then match ws_year (Str.drop (String.length name) s) with
       | Some y => Some (Str.take (String.length name) s, y)
       | None => None
       end
  else None.

(** The alternatives in the order of the expression; the first that leads
    to a match wins. *)
Fixpoint first_alt (s : string) (names : list string)
  : option (string * string) :=
  match names with
  | [] => None
  | n :: rest => match month_alt s n with
                 | Some r => Some r
                 | None => first_alt s rest
                 end
  end.

(** [text.match(/\b(January|...|December)\b\s+(\d{4})/i)]: groups 1 and 2
    of the leftmost match.  [prev_word] tells that the character before
    the current position is a word character, where the leading [\b]
    fails (every alternative starts with a letter). *)
Fixpoint month_year_from (prev_word : bool) (s : string)
  : option (string * string) :=
  match s with
  | EmptyString => None
  | String c r =>
      match (if prev_word then None else first_alt s month_names) with
      | Some m => Some m
      | None => month_year_from (Chr.is_word c) r
      end
  end.

Definition month_year_match : string -> option (string * string) :=
  month_year_from false.

End Re.

(* ===================================================================== *)
(** ** Data model                                                        *)
(* ===================================================================== *)

(** A text item as PDF.js delivers it: [str], the translation part
    [transform[4]], [transform[5]] of its matrix, [width] and [height]. *)
Record TextItem := mkTextItem {
  it_str : string;
  it_e : Z;
  it_f : Z;
  it_width : Z;
  it_height : Z
}.

(** The token [{str, x, y, w, h}] built from a text item. *)
Record Token := mkToken {
  t_str : string;
  t_x : Z;
  t_y : Z;
  t_w : Z;
  t_h : Z
}.

(** [{day, x}] *)
Record DayAnchor := mkAnchor {
  a_day : Z;
  a_x : Z
}.

(** [{name, shift, codes}]; the property names of [codes] are [String(day)]. *)
Record Employee := mkEmployee {
  emp_name : string;
  emp_shift : string;
  emp_codes : gmap string string
}.

(** [{month, year, daysInMonth, employees, shifts}] *)
Record ScheduleResult := mkResult {
  res_month : Z;
  res_year : Z;
  res_daysInMonth : Z;
  res_employees : list Employee;
  res_shifts : gset string
}.

Inductive DayClass := working | off | absent.

(** A [Map] from line keys to lines, in insertion order. *)
Abbreviation LineMap := (list (Z * list Token)).

(* ===================================================================== *)
(** ** Day classifier                                                    *)
(* ===================================================================== *)

Definition OFF_CODES : gset string :=
  list_to_set ["FG"; "FA"; "FC"; "FE"; "FF"; "FAN"; "COVE"].
Definition ABSENT_CODES : gset string :=
  list_to_set ["DM"; "EMT"; "AJ"; "X"].

(** [classify(code)]; for a string, [code || ""] is the string itself. *)
Definition classify (code : string) : DayClass :=
  let c := Str.toUpperCase (Str.trim code) in
  if Str.is_empty c then working
  else if bool_decide (c ∈ OFF_CODES) then off
  else if bool_decide (c ∈ ABSENT_CODES) then absent
  else working.

(* ===================================================================== *)
(** ** Line grouper, header locator, day mapper                          *)
(* ===================================================================== *)

(** [Math.round(it.y / 2) * 2]: [Math.round] rounds halves upwards. *)
Definition yKey (it : Token) : Z := (t_y it + 1) / 2 * 2.

(** [if (!m.has(k)) m.set(k, []); m.get(k).push(it)] *)
Fixpoint map_push (k : Z) (it : Token) (m : LineMap) : LineMap :=
  match m with
  | [] => [(k, [it])]
  | (k', l) :: m' =>
      if k =? k' then (k', l ++ [it]) :: m' else (k', l) :: map_push k it m'
  end.

Definition groupByLine (items : list Token) : LineMap :=
  fold_left (fun m it => map_push (yKey it) it m) items [].

(** [lines.get(k)] *)
Fixpoint map_get (k : Z) (m : LineMap) : option (list Token) :=
  match m with
  | [] => None
  | (k', l) :: m' => if k =? k' then Some l else map_get k m'
  end.

Definition is_day_token (t : Token) : bool := Re.day_token (t_str t).

Definition day_count (line : list Token) : nat :=
  length (List.filter is_day_token line).

Definition pick_step (acc : option (list Token) * nat) (line : list Token)
  : option (list Token) * nat :=
  let count := day_count line in
  if (snd acc <? count)%nat then (Some line, count) else acc.

Definition pickBestDayHeaderLine (lines : LineMap) : option (list Token) :=
  let r := fold_left pick_step (map snd lines) (None, O) in
  if (20 <=? snd r)%nat then fst r else None.

(** The loop of [nearestDay]: [(best, bestDist)], with [None] for the
    initial [null] and [Infinity]. *)
Definition dist (x : Z) (a : DayAnchor) : Z := Z.abs (x - a_x a).

Definition nearest_step (x : Z) (acc : option Z * option Z) (a : DayAnchor)
  : option Z * option Z :=
  let d := dist x a in
  match snd acc with
  | None => (Some (a_day a), Some d)
  | Some bd => if d <? bd then (Some (a_day a), Some d) else acc
  end.

Definition nearestDay (x : Z) (anchors : list DayAnchor) : option Z :=
  let r := fold_left (nearest_step x) anchors (None, None) in
  match snd r with
  | Some bd => if bd <? 12 then fst r else None
  | None => None
  end.

(* ===================================================================== *)
(** ** Section labels, noise lines, names and codes                      *)
(* ===================================================================== *)

Definition direct_labels : list string :=
  ["GSE"; "TOOLING"; "ADMINIST."; "ADMINIST"; "SUPERVISORS";
   "SHIFT B2"; "SHIFT C"; "SHIFT B"].

Definition detectShiftLabel (text : string) : option string :=
  let t := Str.trim (Str.collapse_ws text) in
  match Re.shift_match t with
  | Some m1 => Some (Str.collapse_ws (Str.trim m1))
  | None =>
      List.find
        (fun k => bool_decide (Str.toUpperCase t = Str.toUpperCase k))
        direct_labels
  end.

Definition isNonEmployeeLine (text : string) : bool :=
  let t := Str.trim (Str.toUpperCase text) in
  if Str.is_empty t then true
  else
    Str.includes "MONTHLY SCHEDULE" t ||
    Str.startsWith "TOTAL" t ||
    Str.includes "HEAD COUNT" t ||
    Str.includes "FERIADO" t ||
    Str.includes "LAST REV" t ||
    Str.startsWith "SUN " t ||
    Re.digit_run t.

Definition looksLikeEmployeeName (leftText : string) : bool :=
  let t := Str.trim leftText in
  if Str.is_empty t || (String.length t <? 3)%nat then false
  else if Re.word_prefix_ci "TOTAL" t then false
  else if Re.word_prefix_ci "HEAD" t then false
  else Str.any Chr.is_name_letter t.

Definition cleanEmployeeName (leftText : string) : string :=
  let t := Str.trim (Str.collapse_ws leftText) in
  Str.trim (Re.strip_trailing t).

Definition normalizeCode (s : string) : option string :=
  let t := Str.trim s in
  if Str.is_empty t then None
  else if Re.day_token t then None
  else if Re.month_name_only t then None
  else if Re.alnum_code t || Re.alpha_code t then Some (Str.toUpperCase t)
  else None.

Definition month_table : list (string * Z) :=
  [("january", 1); ("february", 2); ("march", 3); ("april", 4); ("may", 5);
   ("june", 6); ("july", 7); ("august", 8); ("september", 9);
   ("october", 10); ("november", 11); ("december", 12)].

(** [map[name.toLowerCase()] || null] *)
Definition monthNameToNumber (name : string) : option Z :=
  match List.find (fun e => bool_decide (fst e = Str.toLowerCase name))
                  month_table with
  | Some (_, n) => if n =? 0 then None else Some n
  | None => None
  end.

(* ===================================================================== *)
(** ** The parser                                                        *)
(* ===================================================================== *)

(** [Array.prototype.sort] is stable; with a consistent comparator its
    result is the stable sorted arrangement, which insertion from the
    right computes. [le a b] tells that the comparator puts [a] first or
    calls them equal. *)
Fixpoint insert_sorted {A} (le : A -> A -> bool) (a : A) (l : list A)
  : list A :=
  match l with
  | [] => [a]
  | b :: l' => if le a b then a :: l else b :: insert_sorted le a l'
  end.

Definition sort_with {A} (le : A -> A -> bool) (l : list A) : list A :=
  foldr (insert_sorted le) [] l.

(** [.sort((a,b) => a.x - b.x)] *)
Definition sort_by_x : list Token -> list Token :=
  sort_with (fun a b => t_x a <=? t_x b).

(** [.sort((a,b) => Number(b) - Number(a))] *)
Definition sort_desc : list Z -> list Z :=
  sort_with (fun a b => b <=? a).

(** [Math.min(...xs)]; [None] is the [Infinity] of an empty list. *)
Definition Math_min (xs : list Z) : option Z :=
  match xs with
  | [] => None
  | v :: rest => Some (fold_left Z.min rest v)
  end.

(** [t.x < minDayX - 12] *)
Definition left_of (minDayX : option Z) (t : Token) : bool :=
  match minDayX with
  | Some m => t_x t <? m - 12
  | None => true
  end.

(** [line.map(t => t.str).join(" ").trim()] *)
Definition line_text (line : list Token) : string :=
  Str.trim (Str.join_sp (map t_str line)).

(** One step of the loop over [right]. *)
Definition code_step (dayAnchors : list DayAnchor)
  (codes : gmap string string) (t : Token) : gmap string string :=
  match normalizeCode (t_str t) with
  | None => codes
  | Some code =>
      if Str.is_empty code then codes
      else match nearestDay (t_x t) dayAnchors with
           | None => codes
           | Some day =>
               if day =? 0 then codes
               else if (1 <=? day) && (day <=? 31)
                    then <[pretty day := code]> codes
                    else codes
           end
  end.

Definition row_codes (dayAnchors : list DayAnchor) (right : list Token)
  : gmap string string :=
  fold_left (code_step dayAnchors) right ∅.

(** The variables the loop over the lines of a page works on. *)
Record LineState := mkLineState {
  currentShift : string;
  ls_employees : list Employee;
  ls_shifts : gset string
}.

(** The body of the loop over [yKeys], for the line stored under a key. *)
Definition line_step (minDayX : option Z) (dayAnchors : list DayAnchor)
  (st : LineState) (stored : list Token) : LineState :=
  let line := sort_by_x stored in
  let text := line_text line in
  let sLabel := detectShiftLabel text in
  match sLabel with
  | Some (String c l) =>
      {| currentShift := String c l;
         ls_employees := ls_employees st;
         ls_shifts := {[ String c l ]} ∪ ls_shifts st |}
  | _ =>
      if isNonEmployeeLine text then st
      else
        let left := List.filter (left_of minDayX) line in
        let right := List.filter (fun t => negb (left_of minDayX t)) line in
        let leftText := line_text left in
        if negb (looksLikeEmployeeName leftText) then st
        else
          let name := cleanEmployeeName leftText in
          let codes := row_codes dayAnchors right in
          {| currentShift := currentShift st;
             ls_employees :=
               ls_employees st ++ [mkEmployee name (currentShift st) codes];
             ls_shifts := {[ currentShift st ]} ∪ ls_shifts st |}
  end.

(** The variables that live across pages. *)
Record ParseState := mkParseState {
  employees : list Employee;
  shifts : gset string;
  detectedMonth : option Z;
  detectedYear : option Z
}.

Definition init_state : ParseState := mkParseState [] ∅ None None.

(** [tc.items.map(...).filter(o => o.str.length)] *)
Definition page_items (tc : list TextItem) : list Token :=
  List.filter (fun o => negb (Str.is_empty (t_str o)))
    (map (fun it => mkToken (Str.trim (it_str it)) (it_e it) (it_f it)
                            (it_width it) (it_height it)) tc).

(** [!detectedYear] *)
Definition year_unset (y : option Z) : bool :=
  match y with
  | None => true
  | Some v => v =? 0
  end.

(** Lines 137-142: the month and year of a page's text. *)
Definition detect_month_year (items : list Token) (st : ParseState)
  : ParseState :=
  let fullText := Str.join_sp (map t_str items) in
  match Re.month_year_match fullText with
  | Some (m1, m2) =>
      if year_unset (detectedYear st)
      then mkParseState (employees st) (shifts st)
                        (monthNameToNumber m1) (Some (Str.Number m2))
      else st
  | None => st
  end.

Definition dayAnchors_of (headerLine : list Token) : list DayAnchor :=
  map (fun t => mkAnchor (Str.Number (t_str t)) (t_x t))
      (sort_by_x (List.filter is_day_token headerLine)).

(** The lines of a page in the order the loop visits them. *)
Definition lines_in_order (lines : LineMap) : list (list Token) :=
  map (fun k => default [] (map_get k lines)) (sort_desc (map fst lines)).

(** The state of the loop over the lines of a page when it starts. *)
Definition page_start (st : ParseState) : LineState :=
  mkLineState "Unknown" (employees st) (shifts st).

Definition run_lines (minDayX : option Z) (dayAnchors : list DayAnchor)
  (ls : list (list Token)) (st : LineState) : LineState :=
  fold_left (line_step minDayX dayAnchors) ls st.

(** The loop over the lines of a page with header [headerLine], stopped
    after the first [n] lines ([None]: run to the end of the page). *)
Definition page_loop (n : option nat) (st1 : ParseState) (lines : LineMap)
  (headerLine : list Token) : LineState :=
  let dayAnchors := dayAnchors_of headerLine in
  let minDayX := Math_min (map a_x dayAnchors) in
  let todo := lines_in_order lines in
  let visited := match n with Some k => take k todo | None => todo end in
  run_lines minDayX dayAnchors visited (page_start st1).

(** The body of the loop over the pages; [n] as in [page_loop]. *)
Definition page_step_upto (n : option nat) (st : ParseState)
  (tc : list TextItem) : ParseState :=
  let items := page_items tc in
  let st1 := detect_month_year items st in
  let lines := groupByLine items in
  match pickBestDayHeaderLine lines with
  | None => st1
  | Some headerLine =>
      let out := page_loop n st1 lines headerLine in
      mkParseState (ls_employees out) (ls_shifts out)
                   (detectedMonth st1) (detectedYear st1)
  end.

Definition page_step : ParseState -> list TextItem -> ParseState :=
  page_step_upto None.

Definition run_pages (pages : list (list TextItem)) : ParseState :=
  fold_left page_step pages init_state.

(** [new Date(year, month, 0).getDate()]: the last day of month [month]
    (counted from 1); [Date] reads a year from 0 to 99 as 1900 + year. *)
Definition date_year (year : Z) : Z :=
  if (0 <=? year) && (year <=? 99) then 1900 + year else year.

Definition leap_year (y : Z) : bool :=
  ((y mod 4 =? 0) && negb (y mod 100 =? 0)) || (y mod 400 =? 0).

Definition last_day (year month : Z) : Z :=
  if month =? 2 then (if leap_year (date_year year) then 29 else 28)
  else if (month =? 4) || (month =? 6) || (month =? 9) || (month =? 11)
       then 30 else 31.

(** [v || fallback] on a number or [null]. *)
Definition or_else (v : option Z) (fallback : Z) : Z :=
  match v with
  | Some n => if n =? 0 then fallback else n
  | None => fallback
  end.

(** What [parseSchedulePDF] returns from the state after the last page;
    [nowYear] is [new Date().getFullYear()] and [nowMonth] is
    [new Date().getMonth()], from 0 to 11. *)
Definition result_of (nowYear nowMonth : Z) (st : ParseState)
  : ScheduleResult :=
  let year := or_else (detectedYear st) nowYear in
  let month := or_else (detectedMonth st) (nowMonth + 1) in
  mkResult month year (last_day year month) (employees st) (shifts st).

(** [parseSchedulePDF], on the text contents of the pages of the file. *)
Definition parseSchedulePDF (nowYear nowMonth : Z)
  (pages : list (list TextItem)) : ScheduleResult :=
  result_of nowYear nowMonth (run_pages pages).

(* ===================================================================== *)
(** ** Formatting helpers                                                *)
(* ===================================================================== *)

(** [s.padStart(2, "0")] *)
Definition padStart2 (s : string) : string :=
  match s with
  | EmptyString => "00"
  | String c EmptyString => String "0"%char s
  | _ => s
  end.

(** [pad2(n)] for an integer [n]; [String(n)] is its decimal numeral. *)
Definition pad2 (n : Z) : string := padStart2 (pretty n).

(** The replacement table of [escapeHtml]; the last two keys are the
    apostrophe (U+0027) and the quotation mark (U+0022). *)
Definition escape_char (c : ascii) : string :=
  if bool_decide (c = "&"%char) then "&amp;"
  else if bool_decide (c = "<"%char) then "&lt;"
  else if bool_decide (c = ">"%char) then "&gt;"
  else if bool_decide (c = "039"%char) then "&#39;"
  else if bool_decide (c = "034"%char) then "&quot;"
  else String c EmptyString.

(** [escapeHtml(s)] on a string: every character of the class is replaced. *)
Fixpoint escapeHtml (s : string) : string :=
  match s with
  | EmptyString => EmptyString
  | String c r => escape_char c +:+ escapeHtml r
  end.

(* ===================================================================== *)
(** ** Queries of the presentation on a parsed schedule                  *)
(* ===================================================================== *)

(** [emp.codes[String(day)] || ""] *)
Definition code_on (emp : Employee) (day : Z) : string :=
  default "" (emp_codes emp !! pretty day).

(** [emp.shift || "Unknown"] *)
Definition shift_of (emp : Employee) : string :=
  if Str.is_empty (emp_shift emp) then "Unknown" else emp_shift emp.

(** [{working: [], off: [], absent: []}] with entries [{emp, code}]. *)
Record Group := mkGroup {
  g_working : list (Employee * string);
  g_off : list (Employee * string);
  g_absent : list (Employee * string)
}.

(** [grp[cat].push(entry)] *)
Definition group_push (cat : DayClass) (entry : Employee * string)
  (g : Group) : Group :=
  match cat with
  | working => mkGroup (g_working g ++ [entry]) (g_off g) (g_absent g)
  | off => mkGroup (g_working g) (g_off g ++ [entry]) (g_absent g)
  | absent => mkGroup (g_working g) (g_off g) (g_absent g ++ [entry])
  end.

(** [if (!byShift.has(shift)) byShift.set(shift, {...});
     byShift.get(shift)[cat].push(entry)] on a [Map] in insertion order. *)
Fixpoint byShift_push (shift : string) (cat : DayClass)
  (entry : Employee * string) (m : list (string * Group))
  : list (string * Group) :=
  match m with
  | [] => [(shift, group_push cat entry (mkGroup [] [] []))]
  | (k, g) :: m' =>
      if bool_decide (k = shift) then (k, group_push cat entry g) :: m'
      else (k, g) :: byShift_push shift cat entry m'
  end.

(** [byShift.get(shift)] *)
Fixpoint byShift_get (shift : string) (m : list (string * Group))
  : option Group :=
  match m with
  | [] => None
  | (k, g) :: m' =>
      if bool_decide (k = shift) then Some g else byShift_get shift m'
  end.

(** The variables of the first loop of [renderResults]. *)
Record RenderState := mkRenderState {
  byShift : list (string * Group);
  workingNames : list string;
  offCount : nat;
  absentCount : nat
}.

(** The body of the loop over [parsed.employees]. *)
Definition render_step (day : Z) (st : RenderState) (emp : Employee)
  : RenderState :=
  let shift := shift_of emp in
  let code := code_on emp day in
  let cat := classify code in
  mkRenderState
    (byShift_push shift cat (emp, code) (byShift st))
    (match cat with
     | working => workingNames st ++ [emp_name emp]
     | _ => workingNames st
     end)
    (match cat with off => S (offCount st) | _ => offCount st end)
    (match cat with absent => S (absentCount st) | _ => absentCount st end).

(** Lines 201-214 of [renderResults]: the groups and the counters. *)
Definition render_groups (day : Z) (emps : list Employee) : RenderState :=
  fold_left (render_step day) emps (mkRenderState [] [] O O).

(** The loop of [openEmployee] that collects [offDays], for days
    [1 .. daysInMonth]. *)
Definition offDays (emp : Employee) (daysInMonth : Z) : list Z :=
  List.filter
    (fun d => bool_decide
                (Str.toUpperCase (Str.trim (code_on emp d)) ∈ OFF_CODES))
    (seqZ 1 daysInMonth).

(* ===================================================================== *)
(** ** Notions of the specification                                      *)
(* ===================================================================== *)

(** The day classifier in the words of the specification: upper-case and
    trim the code, then look it up in the two fixed vocabularies. *)
Definition classify_spec (code : string) : DayClass :=
  let c := Str.trim (Str.toUpperCase code) in
  if bool_decide (c = "") then working
  else if bool_decide (c ∈ ["FG"; "FA"; "FC"; "FE"; "FF"; "FAN"; "COVE"])
       then off
  else if bool_decide (c ∈ ["DM"; "EMT"; "AJ"; "X"]) then absent
  else working.

(** The least horizontal distance from [x] to an anchor. *)
Definition min_dist (x : Z) (anchors : list DayAnchor) : option Z :=
  Math_min (map (dist x) anchors).

(** [a] is the first anchor of [pre ++ a :: post] at the least distance
    from [x]. *)
Definition first_nearest (x : Z) (pre : list DayAnchor) (a : DayAnchor)
  (post : list DayAnchor) : Prop :=
  (forall b, b ∈ pre -> dist x a < dist x b) /\
  (forall b, b ∈ post -> dist x a <= dist x b).

(** Anchors in ascending order of [x]. *)
Definition ascending_x (anchors : list DayAnchor) : Prop :=
  forall i j a b,
    (i < j)%nat -> anchors !! i = Some a -> anchors !! j = Some b ->
    a_x a <= a_x b.

(** The text of a stored line is a section label for the loop. *)
Definition is_label_line (stored : list Token) : bool :=
  match detectShiftLabel (line_text (sort_by_x stored)) with
  | Some (String _ _) => true
  | _ => false
  end.

(** The value of [currentShift] when the loop over the lines of a page
    ends; [None] for a page without header, which has no such loop. *)
Definition page_end_shift (st : ParseState) (tc : list TextItem)
  : option string :=
  let items := page_items tc in
  let lines := groupByLine items in
  match pickBestDayHeaderLine lines with
  | Some headerLine =>
      Some (currentShift
              (page_loop None (detect_month_year items st) lines headerLine))
  | None => None
  end.

(** What one line does to the loop state: a label line sets the current
    shift and registers it; any other line is skipped or appends one
    employee under the current shift, which it registers. *)
Inductive line_effect (dayAnchors : list DayAnchor) (st : LineState)
  : LineState -> Prop :=
  | effect_label lab :
      lab <> "" ->
      line_effect dayAnchors st
        (mkLineState lab (ls_employees st) ({[ lab ]} ∪ ls_shifts st))
  | effect_skip : line_effect dayAnchors st st
  | effect_row name right :
      line_effect dayAnchors st
        (mkLineState (currentShift st)
           (ls_employees st ++
            [mkEmployee name (currentShift st) (row_codes dayAnchors right)])
           ({[ currentShift st ]} ∪ ls_shifts st)).

(** Every employee's shift is registered in the set of shifts. *)
Definition shifts_cover (emps : list Employee) (sh : gset string) : Prop :=
  forall e, e ∈ emps -> emp_shift e ∈ sh.

(** The state of the parse after the first [k] pages and the first [j]
    lines of the next one. *)
Definition state_at (pages : list (list TextItem)) (k j : nat)
  : ParseState :=
  let before := fold_left page_step (take k pages) init_state in
  match pages !! k with
  | Some tc => page_step_upto (Some j) before tc
  | None => before
  end.

(** A normalized code: not empty, upper-cased, of one of the accepted
    shapes, and not a bare number of one or two digits. *)
Definition normal_code (v : string) : Prop :=
  v <> "" /\ Str.toUpperCase v = v /\
  (Re.alnum_code v || Re.alpha_code v = true) /\ Re.day_token v = false.

Definition codes_ok (codes : gmap string string) : Prop :=
  forall k v, codes !! k = Some v ->
    (exists d : Z, 1 <= d <= 31 /\ k = pretty d) /\ normal_code v.

(** The month and year a page's text shows, as numbers. *)
Definition page_month_year (tc : list TextItem) : option (Z * Z) :=
  match Re.month_year_match (Str.join_sp (map t_str (page_items tc))) with
  | Some (m1, m2) =>
      match monthNameToNumber m1 with
      | Some m => Some (m, Str.Number m2)
      | None => None
      end
  | None => None
  end.

(** The detected month and year are both unset, or both come from the
    text of one of [pages]. *)
Definition month_year_from_pages (pages : list (list TextItem))
  (st : ParseState) : Prop :=
  (detectedMonth st = None /\ detectedYear st = None) \/
  exists tc m y,
    tc ∈ pages /\ page_month_year tc = Some (m, y) /\ 1 <= m <= 12 /\
    detectedMonth st = Some m /\ detectedYear st = Some y.

(** White space in [t] is the space character only, never twice in a
    row; [prev] tells that the character before [t] is a space. *)
Fixpoint spaced (prev : bool) (t : string) : bool :=
  match t with
  | EmptyString => true
  | String c r =>
      if Chr.is_space c
      then bool_decide (c = " "%char) && negb prev && spaced true r
      else spaced false r
  end.

(** As [spaced], and [t] does not end in a space. *)
Fixpoint tidy_after (prev : bool) (t : string) : bool :=
  match t with
  | EmptyString => negb prev
  | String c r =>
      if Chr.is_space c
      then bool_decide (c = " "%char) && negb prev && tidy_after true r
      else tidy_after false r
  end.

(** A name in normal form: single spaces between words, none around. *)
Definition tidy (t : string) : bool :=
  match t with
  | EmptyString => true
  | String c r => negb (Chr.is_space c) && tidy_after false r
  end.

(* ===================================================================== *)
(** ** Notions used to describe the parser and the presentation          *)
(* ===================================================================== *)

(** [[A-Za-z0-9]] *)
Definition is_alnum (c : ascii) : bool := Chr.is_alpha c || Chr.is_digit c.


(** A value of [currentShift]: the initial one or a detected label. *)
Definition shift_value (s : string) : Prop :=
  s = "Unknown" \/ exists text, detectShiftLabel text = Some s.

(** The loop over the lines only holds shifts of this kind. *)
Definition line_state_ok (st : LineState) : Prop :=
  shift_value (currentShift st) /\
  forall s, s ∈ ls_shifts st -> shift_value s.

(** The same, for the variables that live across pages. *)
Definition parse_state_ok (st : ParseState) : Prop :=
  forall s, s ∈ shifts st -> shift_value s.










(** A character below U+0080, where [toUpperCase] is the ASCII mapping. *)
Definition is_ascii (c : ascii) : bool := (Chr.code c <? 128)%N.

(** The loop state that has seen nothing yet, under shift [s]. *)
Definition fresh_lines (s : string) : LineState := mkLineState s [] ∅.

(** The day and code a token of the code region contributes, if any. *)
Definition token_entry (dayAnchors : list DayAnchor) (t : Token)
  : option (Z * string) :=
  match normalizeCode (t_str t) with
  | None => None
  | Some code =>
      if Str.is_empty code then None
      else match nearestDay (t_x t) dayAnchors with
           | None => None
           | Some day =>
               if day =? 0 then None
               else if (1 <=? day) && (day <=? 31) then Some (day, code)
                    else None
           end
  end.

(** [a === b] on the three classes. *)
Definition class_eqb (a b : DayClass) : bool :=
  match a, b with
  | working, working | off, off | absent, absent => true
  | _, _ => false
  end.

(** The entries [{emp, code}] of the employees of class [cat] on [day]. *)
Definition bucket (day : Z) (cat : DayClass) (emps : list Employee)
  : list (Employee * string) :=
  map (fun e => (e, code_on e day))
      (List.filter (fun e => class_eqb (classify (code_on e day)) cat) emps).

(** The characters of HTML markup that [escapeHtml] must not let through:
    [<], [>], the apostrophe and the quotation mark. *)
Definition markup_char (c : ascii) : bool :=
  bool_decide (c = "<"%char) || bool_decide (c = ">"%char) ||
  bool_decide (c = "039"%char) || bool_decide (c = "034"%char).

(** The characters [escapeHtml] replaces. *)
Definition escaped_char (c : ascii) : bool :=
  bool_decide (c = "&"%char) || markup_char c.

(* ===================================================================== *)
(** ** Sample documents                                                  *)
(* ===================================================================== *)

(** A header line at height [yy] with the day numbers [from .. from+n-1],
    20 units apart. *)
Definition header_items (yy : Z) (from n : nat) : list TextItem :=
  map (fun d => mkTextItem (pretty (Z.of_nat d)) (100 + 20 * Z.of_nat d)
                           yy 5 8)
      (seq from n).

Definition sample_page1 : list TextItem :=
  header_items 700 1 20 ++
  [mkTextItem "SHIFT B" 10 680 30 8;
   mkTextItem "JOHN SMITH" 10 660 50 8;
   mkTextItem "FG" 120 660 10 8].

Definition sample_page2 : list TextItem :=
  header_items 700 1 20 ++
  [mkTextItem "JANE DOE" 10 680 50 8;
   mkTextItem "DM" 140 680 10 8].

(** Two lines of a page: an employee row, and a header with 20 day numbers
    next to a column title. *)
Definition sample_header : list Token :=
  mkToken "Day" 10 700 20 8 ::
  map (fun d => mkToken (pretty (Z.of_nat d)) (100 + 20 * Z.of_nat d) 700 5 8)
      (seq 1 20).

Definition sample_lines : LineMap :=
  [(680, [mkToken "JOHN" 10 680 20 8; mkToken "7" 240 680 5 8]);
   (700, sample_header)].

(** A page whose best line has only 19 day numbers. *)
Definition sample_page_short : list TextItem :=
  header_items 700 1 19 ++
  [mkTextItem "JANE DOE" 10 680 50 8;
   mkTextItem "DM" 140 680 10 8].

Definition title_page (title : string) : list TextItem :=
  [mkTextItem title 10 10 60 8].

(* ===================================================================== *)
(** ** Characters and strings: basic facts                               *)
(* ===================================================================== *)

Ltac each_char c :=
  destruct c as [[] [] [] [] [] [] [] []]; vm_compute; try reflexivity;
  try discriminate; auto.

Lemma space_to_upper c : Chr.is_space (Chr.to_upper c) = Chr.is_space c.
Proof. each_char c. Qed.

Lemma to_upper_idem c : Chr.to_upper (Chr.to_upper c) = Chr.to_upper c.
Proof. each_char c. Qed.

Lemma alpha_to_upper c : Chr.is_alpha (Chr.to_upper c) = Chr.is_alpha c.
Proof. each_char c. Qed.

Lemma digit_to_upper c : Chr.is_digit (Chr.to_upper c) = Chr.is_digit c.
Proof. each_char c. Qed.

Lemma alpha_not_digit c : Chr.is_alpha c = true -> Chr.is_digit c = false.
Proof. each_char c. Qed.

Lemma alpha_not_space c : Chr.is_alpha c = true -> Chr.is_space c = false.
Proof. each_char c. Qed.

Lemma digit_not_space c : Chr.is_digit c = true -> Chr.is_space c = false.
Proof. each_char c. Qed.

Lemma is_empty_true s : Str.is_empty s = true <-> s = "".
Proof. destruct s; simpl; split; intros H; congruence. Qed.

Lemma is_empty_map f s : Str.is_empty (Str.map f s) = Str.is_empty s.
Proof. destruct s; reflexivity. Qed.

Lemma map_map_idem f s :
  (forall c, f (f c) = f c) -> Str.map f (Str.map f s) = Str.map f s.
Proof. intros Hf. induction s as [|c s IH]; simpl; congruence. Qed.

Lemma toUpperCase_idem s :
  Str.toUpperCase (Str.toUpperCase s) = Str.toUpperCase s.
Proof. apply map_map_idem, to_upper_idem. Qed.

Lemma skip_ws_upper s :
  Str.skip_ws (Str.toUpperCase s) = Str.toUpperCase (Str.skip_ws s).
Proof.
  induction s as [|c s IH]; simpl; [reflexivity|].
  rewrite space_to_upper. destruct (Chr.is_space c); [exact IH|reflexivity].
Qed.

Lemma trimEnd_upper s :
  Str.trimEnd (Str.toUpperCase s) = Str.toUpperCase (Str.trimEnd s).
Proof.
  induction s as [|c s IH]; simpl; [reflexivity|].
  fold (Str.toUpperCase s). rewrite IH, space_to_upper.
  unfold Str.toUpperCase at 1. rewrite is_empty_map.
  destruct (Chr.is_space c && Str.is_empty (Str.trimEnd s)); reflexivity.
Qed.

Lemma trim_upper s :
  Str.trim (Str.toUpperCase s) = Str.toUpperCase (Str.trim s).
Proof.
  unfold Str.trim, Str.trimStart. now rewrite skip_ws_upper, trimEnd_upper.
Qed.

(* ===================================================================== *)
(** ** Day classifier                                                    *)
(* ===================================================================== *)

Lemma classify_refines c : classify c = classify_spec c.
Proof.
  unfold classify, classify_spec. rewrite trim_upper.
  set (u := Str.toUpperCase (Str.trim c)).
  destruct (Str.is_empty u) eqn:He.
  - apply is_empty_true in He. now rewrite bool_decide_eq_true_2.
  - rewrite (bool_decide_eq_false_2 (u = ""))
      by (intros E; apply is_empty_true in E; congruence).
    unfold OFF_CODES, ABSENT_CODES.
    rewrite (bool_decide_ext _ _ (elem_of_list_to_set (C:=gset string) u _)).
    destruct (bool_decide (u ∈ _)); [reflexivity|].
    now rewrite (bool_decide_ext _ _
                   (elem_of_list_to_set (C:=gset string) u _)).
Qed.

(** C5. [classify] is a total function of its string argument (a function
    of the embedding, so one result for every string): it upper-cases and
    trims the code, sends the empty result to [working], the off codes
    FG, FA, FC, FE, FF, FAN, COVE to [off], the absent codes DM, EMT, AJ, X
    to [absent] and everything else to [working]; on "", " ", "fg", "FG",
    "dm" and "xyz" it gives working, working, off, off, absent, working. *)
Theorem classify_total_and_tabulated :
  (forall c, classify c = classify_spec c) /\
  classify "" = working /\ classify " " = working /\
  classify "fg" = off /\ classify "FG" = off /\
  classify "dm" = absent /\ classify "xyz" = working.
Proof.
  split; [exact classify_refines|].
  repeat split; vm_compute; reflexivity.
Qed.

(* ===================================================================== *)
(** ** Day mapper                                                        *)
(* ===================================================================== *)

Section NearestDay.

Variable x : Z.

Lemma nearest_fold_far a pre acc :
  (forall b, b ∈ pre -> dist x a < dist x b) ->
  (forall bd, snd acc = Some bd -> dist x a < bd) ->
  forall bd, snd (fold_left (nearest_step x) pre acc) = Some bd ->
             dist x a < bd.
Proof.
  revert acc. induction pre as [|b pre IH]; intros acc Hpre Hacc; simpl.
  - exact Hacc.
  - apply IH.
    + intros b' Hb'. apply Hpre. now right.
    + assert (Hb : dist x a < dist x b) by (apply Hpre; now left).
      unfold nearest_step. destruct (snd acc) as [bd0|] eqn:E; simpl.
      * destruct (Z.ltb_spec (dist x b) bd0); simpl.
        -- intros bd [= <-]. exact Hb.
        -- rewrite E. intros bd [= <-]. now apply Hacc.
      * intros bd [= <-]. exact Hb.
Qed.

Lemma nearest_fold_keep day d post :
  (forall b, b ∈ post -> d <= dist x b) ->
  fold_left (nearest_step x) post (Some day, Some d) = (Some day, Some d).
Proof.
  induction post as [|b post IH]; intros Hpost; simpl; [reflexivity|].
  unfold nearest_step at 2. simpl.
  assert (Hb : d <= dist x b) by (apply Hpost; now left).
  destruct (Z.ltb_spec (dist x b) d); [lia|].
  apply IH. intros b' Hb'. apply Hpost. now right.
Qed.

Lemma nearest_fold_first pre a post :
  first_nearest x pre a post ->
  fold_left (nearest_step x) (pre ++ a :: post) (None, None)
  = (Some (a_day a), Some (dist x a)).
Proof.
  intros [Hpre Hpost]. rewrite fold_left_app. simpl.
  pose proof (nearest_fold_far a pre (None, None) Hpre) as Hfar.
  destruct (fold_left (nearest_step x) pre (None, None)) as [bst bdist].
  simpl in Hfar. unfold nearest_step at 2. simpl.
  destruct bdist as [bd|].
  - specialize (Hfar ltac:(discriminate) bd eq_refl).
    destruct (Z.ltb_spec (dist x a) bd); [|lia].
    now apply nearest_fold_keep.
  - now apply nearest_fold_keep.
Qed.

Lemma nearestDay_first pre a post :
  first_nearest x pre a post ->
  nearestDay x (pre ++ a :: post)
  = if dist x a <? 12 then Some (a_day a) else None.
Proof.
  intros H. unfold nearestDay. rewrite (nearest_fold_first _ _ _ H).
  reflexivity.
Qed.

(** Every non-empty anchor list has a first nearest anchor. *)
Lemma first_nearest_exists anchors :
  anchors <> [] ->
  exists pre a post, anchors = pre ++ a :: post /\ first_nearest x pre a post.
Proof.
  induction anchors as [|a0 l IH]; [congruence|]. intros _.
  destruct l as [|a1 l'].
  - exists [], a0, []. split; [reflexivity|].
    split; intros b Hb; inversion Hb.
  - destruct IH as (pre & a & post & Heq & Hpre & Hpost); [discriminate|].
    destruct (Z.le_gt_cases (dist x a0) (dist x a)) as [Hle|Hgt].
    + exists [], a0, (a1 :: l'). split; [reflexivity|].
      split; [intros b Hb; inversion Hb|].
      intros b Hb. rewrite Heq in Hb.
      apply elem_of_app in Hb as [Hb|Hb].
      * specialize (Hpre b Hb). lia.
      * apply elem_of_cons in Hb as [->|Hb]; [lia|].
        specialize (Hpost b Hb). lia.
    + exists (a0 :: pre), a, post. split; [now rewrite Heq|].
      split; [|exact Hpost].
      intros b Hb. apply elem_of_cons in Hb as [->|Hb]; [lia|now apply Hpre].
Qed.

End NearestDay.

Lemma fold_min_le rest v :
  fold_left Z.min rest v <= v /\
  forall u, u ∈ rest -> fold_left Z.min rest v <= u.
Proof.
  revert v. induction rest as [|r rest IH]; intros v; simpl.
  - split; [lia|]. intros u Hu. inversion Hu.
  - destruct (IH (Z.min v r)) as [H1 H2]. split; [lia|].
    intros u Hu. apply elem_of_cons in Hu as [->|Hu]; [lia|now apply H2].
Qed.

Lemma fold_min_in rest v :
  fold_left Z.min rest v ∈ v :: rest.
Proof.
  revert v. induction rest as [|r rest IH]; intros v; simpl.
  - now left.
  - specialize (IH (Z.min v r)).
    apply elem_of_cons in IH as [E|IH].
    + rewrite E. destruct (Z.min_spec v r) as [[_ ->]|[_ ->]].
      * now left.
      * right. now left.
    + right. now right.
Qed.

(** [Math_min] returns the least element of a list. *)
Lemma Math_min_least xs m :
  m ∈ xs -> (forall u, u ∈ xs -> m <= u) -> Math_min xs = Some m.
Proof.
  destruct xs as [|v rest]; [intros H; inversion H|].
  intros Hin Hle. simpl. f_equal.
  pose proof (fold_min_le rest v) as [H1 H2].
  pose proof (fold_min_in rest v) as H3.
  specialize (Hle _ H3).
  apply elem_of_cons in Hin as [->|Hin]; [lia|].
  specialize (H2 _ Hin). lia.
Qed.

Lemma min_dist_first x pre a post :
  first_nearest x pre a post ->
  min_dist x (pre ++ a :: post) = Some (dist x a).
Proof.
  intros [Hpre Hpost]. unfold min_dist. apply Math_min_least.
  - apply list_elem_of_fmap. exists a. split; [reflexivity|].
    apply elem_of_app. right. now left.
  - intros u Hu. apply list_elem_of_fmap in Hu as (b & -> & Hb).
    apply elem_of_app in Hb as [Hb|Hb].
    + specialize (Hpre b Hb). lia.
    + apply elem_of_cons in Hb as [->|Hb]; [lia|now apply Hpost].
Qed.

(** C3 as stated fails at the boundary: a token exactly 12 units from the
    only anchor is not more than 12 units away, and is dropped all the
    same. *)
Lemma nearestDay_tolerance_counterexample :
  min_dist 12 [mkAnchor 1 0] = Some 12 /\
  ~ (nearestDay 12 [mkAnchor 1 0] = None <-> 12 < 12).
Proof.
  split; [reflexivity|]. intros [H _].
  assert (E : nearestDay 12 [mkAnchor 1 0] = None) by reflexivity.
  specialize (H E). lia.
Qed.

(** C3, amended. For every token position and every non-empty anchor list,
    the day mapper picks an anchor at the least absolute horizontal
    distance and keeps its day exactly when that distance is below 12
    units; it drops the token exactly when the least distance is 12 or
    more.  So distance 0 and distance 11 map to the nearest anchor's day,
    and a token 12 or more units from every anchor maps to no day. *)
Theorem nearestDay_within_tolerance x anchors :
  anchors <> [] ->
  exists a,
    a ∈ anchors /\
    (forall b, b ∈ anchors -> dist x a <= dist x b) /\
    min_dist x anchors = Some (dist x a) /\
    nearestDay x anchors = (if dist x a <? 12 then Some (a_day a) else None) /\
    (nearestDay x anchors = None <-> 12 <= dist x a).
Proof.
  intros Hne.
  destruct (first_nearest_exists x anchors Hne)
    as (pre & a & post & -> & Hfirst).
  exists a. split; [apply elem_of_app; right; now left|].
  split.
  { destruct Hfirst as [Hpre Hpost]. intros b Hb.
    apply elem_of_app in Hb as [Hb|Hb].
    - specialize (Hpre b Hb). lia.
    - apply elem_of_cons in Hb as [->|Hb]; [lia|now apply Hpost]. }
  split; [now apply min_dist_first|].
  rewrite (nearestDay_first x pre a post Hfirst).
  split; [reflexivity|].
  destruct (Z.ltb_spec (dist x a) 12); split; intros; try lia; try easy.
Qed.

Lemma nearestDay_within_tolerance_witness :
  [mkAnchor 1 0; mkAnchor 2 20] <> [] /\
  exists a,
    a ∈ [mkAnchor 1 0; mkAnchor 2 20] /\
    (forall b, b ∈ [mkAnchor 1 0; mkAnchor 2 20] -> dist 11 a <= dist 11 b) /\
    min_dist 11 [mkAnchor 1 0; mkAnchor 2 20] = Some (dist 11 a) /\
    nearestDay 11 [mkAnchor 1 0; mkAnchor 2 20]
    = (if dist 11 a <? 12 then Some (a_day a) else None) /\
    (nearestDay 11 [mkAnchor 1 0; mkAnchor 2 20] = None <-> 12 <= dist 11 a).
Proof.
  split; [discriminate|].
  apply (nearestDay_within_tolerance 11 [mkAnchor 1 0; mkAnchor 2 20]).
  discriminate.
Defined.

Lemma lookup_split_first {A} (l : list A) i a :
  l !! i = Some a -> l = take i l ++ a :: drop (S i) l.
Proof. intros H. symmetry. now apply take_drop_middle. Qed.

(** C10 as stated fails: two anchors in ascending order, both at the least
    distance 20 from the token, and no day is returned, since the least
    distance is not below the tolerance. *)
Lemma nearestDay_tie_counterexample :
  ascending_x [mkAnchor 1 0; mkAnchor 2 40] /\
  dist 20 (mkAnchor 1 0) = dist 20 (mkAnchor 2 40) /\
  min_dist 20 [mkAnchor 1 0; mkAnchor 2 40] = Some (dist 20 (mkAnchor 1 0)) /\
  nearestDay 20 [mkAnchor 1 0; mkAnchor 2 40] = None /\
  nearestDay 20 [mkAnchor 1 0; mkAnchor 2 40] <> Some (a_day (mkAnchor 1 0)).
Proof.
  split.
  { intros [|[|i]] [|[|j]] a b Hij Ha Hb; try lia; try discriminate.
    injection Ha as <-. injection Hb as <-. simpl. lia. }
  repeat split; try (vm_compute; reflexivity). vm_compute. discriminate.
Qed.

(** C10, amended. Ties go to the earliest anchor: when the anchor at index
    [i] is at the least distance from [x] and every anchor before it is
    strictly farther, [nearestDay] answers with that anchor's day if the
    least distance is below 12 units, and with no day otherwise; in a list
    in ascending order of [x] this anchor has the smallest [x] among the
    anchors at the least distance. *)
Theorem nearestDay_tie_earliest x anchors i a :
  anchors !! i = Some a ->
  (forall j b, anchors !! j = Some b -> dist x a <= dist x b) ->
  (forall j b, (j < i)%nat -> anchors !! j = Some b -> dist x a < dist x b) ->
  nearestDay x anchors = (if dist x a <? 12 then Some (a_day a) else None) /\
  (ascending_x anchors ->
   forall j b, anchors !! j = Some b -> dist x b = dist x a ->
               a_x a <= a_x b).
Proof.
  intros Hi Hall Hbefore. split.
  - rewrite (lookup_split_first anchors i a Hi).
    apply nearestDay_first. split.
    + intros b Hb. apply list_elem_of_lookup in Hb as [j Hj].
      apply lookup_take_Some in Hj as [Hj Hlt]. now apply (Hbefore j).
    + intros b Hb. apply list_elem_of_lookup in Hb as [j Hj].
      rewrite lookup_drop in Hj. now apply (Hall _ _ Hj).
  - intros Hasc j b Hj Hd.
    destruct (Nat.lt_trichotomy j i) as [Hlt|[->|Hgt]].
    + specialize (Hbefore j b Hlt Hj). lia.
    + rewrite Hi in Hj. injection Hj as <-. lia.
    + now apply (Hasc i j).
Qed.

Lemma nearestDay_tie_earliest_witness :
  nearestDay 10 [mkAnchor 1 0; mkAnchor 2 20] = Some 1 /\
  (ascending_x [mkAnchor 1 0; mkAnchor 2 20] ->
   forall j b, [mkAnchor 1 0; mkAnchor 2 20] !! j = Some b ->
               dist 10 b = dist 10 (mkAnchor 1 0) ->
               a_x (mkAnchor 1 0) <= a_x b).
Proof.
  apply (nearestDay_tie_earliest 10 [mkAnchor 1 0; mkAnchor 2 20] 0
           (mkAnchor 1 0)).
  - reflexivity.
  - intros [|[|j]] b; simpl; intros [= <-]; vm_compute; discriminate.
  - intros j b Hj. lia.
Defined.

(* ===================================================================== *)
(** ** Header locator                                                    *)
(* ===================================================================== *)

Lemma pick_fold_below (c : nat) pre acc :
  (forall l, l ∈ pre -> (day_count l < c)%nat) ->
  (snd acc < c)%nat ->
  (snd (fold_left pick_step pre acc) < c)%nat.
Proof.
  revert acc. induction pre as [|l pre IH]; intros acc Hpre Hacc; simpl.
  - exact Hacc.
  - apply IH; [intros l' Hl'; apply Hpre; now right|].
    unfold pick_step. destruct (Nat.ltb_spec (snd acc) (day_count l)); simpl.
    + apply Hpre. now left.
    + exact Hacc.
Qed.

Lemma pick_fold_keep post acc :
  (forall l, l ∈ post -> (day_count l <= snd acc)%nat) ->
  fold_left pick_step post acc = acc.
Proof.
  induction post as [|l post IH]; intros Hpost; simpl; [reflexivity|].
  assert (Hl : (day_count l <= snd acc)%nat) by (apply Hpost; now left).
  unfold pick_step at 2. destruct (Nat.ltb_spec (snd acc) (day_count l)).
  - lia.
  - apply IH. intros l' Hl'. apply Hpost. now right.
Qed.

Lemma pick_fold_first pre l post :
  (forall l', l' ∈ pre -> (day_count l' < day_count l)%nat) ->
  (forall l', l' ∈ post -> (day_count l' <= day_count l)%nat) ->
  fold_left pick_step (pre ++ l :: post) (None, O)
  = (if (0 <? day_count l)%nat then Some l else None, day_count l).
Proof.
  intros Hpre Hpost. rewrite fold_left_app. simpl.
  destruct (Nat.ltb_spec 0 (day_count l)) as [Hpos|Hzero].
  - pose proof (pick_fold_below (day_count l) pre (None, O) Hpre Hpos) as Hb.
    destruct (fold_left pick_step pre (None, O)) as [bst cnt].
    simpl in Hb. unfold pick_step at 2. simpl.
    destruct (Nat.ltb_spec cnt (day_count l)); [|lia].
    now apply pick_fold_keep.
  - destruct pre as [|l0 pre].
    + simpl. unfold pick_step at 2. simpl.
      destruct (Nat.ltb_spec 0 (day_count l)); [lia|].
      replace (day_count l) with O by lia.
      apply pick_fold_keep. simpl. intros l' Hl'.
      specialize (Hpost l' Hl'). lia.
    + exfalso. specialize (Hpre l0 ltac:(now left)). lia.
Qed.

(** A page none of whose lines reaches the threshold has no header. *)
Lemma pick_none_below (lines : LineMap) :
  (forall l, l ∈ map snd lines -> (day_count l < 20)%nat) ->
  pickBestDayHeaderLine lines = None.
Proof.
  intros H. unfold pickBestDayHeaderLine.
  pose proof (pick_fold_below 20 (map snd lines) (None, O) H) as Hb.
  simpl in Hb. specialize (Hb ltac:(lia)).
  destruct (Nat.leb_spec 20 (snd (fold_left pick_step (map snd lines) (None, O))));
    [lia|reflexivity].
Qed.

(** Every non-empty list of lines has a first line of maximal count. *)
Lemma first_max_exists (ls : list (list Token)) :
  ls <> [] ->
  exists pre l post,
    ls = pre ++ l :: post /\
    (forall l', l' ∈ pre -> (day_count l' < day_count l)%nat) /\
    (forall l', l' ∈ post -> (day_count l' <= day_count l)%nat).
Proof.
  induction ls as [|l0 ls IH]; [congruence|]. intros _.
  destruct ls as [|l1 ls'].
  - exists [], l0, []. split; [reflexivity|].
    split; intros l' Hl'; inversion Hl'.
  - destruct IH as (pre & l & post & Heq & Hpre & Hpost); [discriminate|].
    destruct (Nat.le_gt_cases (day_count l) (day_count l0)) as [Hle|Hgt].
    + exists [], l0, (l1 :: ls'). split; [reflexivity|].
      split; [intros l' Hl'; inversion Hl'|].
      intros l' Hl'. rewrite Heq in Hl'.
      apply elem_of_app in Hl' as [Hl'|Hl'].
      * specialize (Hpre l' Hl'). lia.
      * apply elem_of_cons in Hl' as [->|Hl']; [lia|].
        specialize (Hpost l' Hl'). lia.
    + exists (l0 :: pre), l, post. split; [now rewrite Heq|].
      split; [|exact Hpost].
      intros l' Hl'. apply elem_of_cons in Hl' as [->|Hl']; [lia|].
      now apply Hpre.
Qed.

Lemma pick_first_max (lines : LineMap) pre l post :
  map snd lines = pre ++ l :: post ->
  (forall l', l' ∈ pre -> (day_count l' < day_count l)%nat) ->
  (forall l', l' ∈ post -> (day_count l' <= day_count l)%nat) ->
  pickBestDayHeaderLine lines
  = if (20 <=? day_count l)%nat then Some l else None.
Proof.
  intros Heq Hpre Hpost. unfold pickBestDayHeaderLine.
  rewrite Heq, (pick_fold_first pre l post Hpre Hpost). cbn [fst snd].
  destruct (Nat.leb_spec 20 (day_count l)); [|reflexivity].
  destruct (Nat.ltb_spec 0 (day_count l)); [reflexivity|lia].
Qed.



(* ===================================================================== *)
(** ** Name cleanup                                                      *)
(* ===================================================================== *)
Lemma spaced_collapse b s : spaced b (Str.collapse_from b s) = true.
Proof.
  revert b. induction s as [|c s IH]; intros b; [reflexivity|].
  cbn [Str.collapse_from]. destruct (Chr.is_space c) eqn:Hc.
  - destruct b; [apply IH|].
    cbn [spaced]. replace (Chr.is_space " ") with true by reflexivity.
    rewrite bool_decide_eq_true_2 by reflexivity. apply IH.
  - cbn [spaced]. rewrite Hc. apply IH.
Qed.

Lemma spaced_skip_ws b b' t :
  spaced b t = true -> spaced b' (Str.skip_ws t) = true.
Proof.
  revert b. induction t as [|c t IH]; intros b; [reflexivity|].
  cbn [spaced Str.skip_ws]. destruct (Chr.is_space c) eqn:Hc.
  - intros H. apply andb_true_iff in H as [_ H]. now apply (IH true).
  - intros H. cbn [spaced]. now rewrite Hc.
Qed.

Lemma tidy_after_trimEnd b t :
  spaced b t = true ->
  Str.trimEnd t = "" \/ tidy_after b (Str.trimEnd t) = true.
Proof.
  revert b. induction t as [|c t IH]; intros b; [now left|].
  cbn [spaced Str.trimEnd]. destruct (Chr.is_space c) eqn:Hc.
  - intros H. apply andb_true_iff in H as [H1 H2].
    destruct (Str.is_empty (Str.trimEnd t)) eqn:He; [now left|].
    right. cbn [andb tidy_after]. rewrite Hc, H1.
    destruct (IH true H2) as [E|E]; [|exact E].
    rewrite E in He. discriminate.
  - intros H. right. cbn [andb tidy_after]. rewrite Hc.
    destruct (IH false H) as [E|E]; [now rewrite E|exact E].
Qed.

Lemma skip_ws_head t :
  Str.skip_ws t = "" \/
  exists c r, Str.skip_ws t = String c r /\ Chr.is_space c = false.
Proof.
  induction t as [|c t IH]; [now left|].
  cbn [Str.skip_ws]. destruct (Chr.is_space c) eqn:Hc; [exact IH|].
  right. now exists c, t.
Qed.

Lemma tidy_normalized s : tidy (Str.trim (Str.collapse_ws s)) = true.
Proof.
  unfold Str.trim, Str.trimStart, Str.collapse_ws.
  pose proof (spaced_skip_ws false false _ (spaced_collapse false s)) as Hs.
  destruct (skip_ws_head (Str.collapse_from false s)) as [E|(c & r & E & Hc)].
  - now rewrite E.
  - rewrite E in *. cbn [spaced] in Hs. rewrite Hc in Hs.
    cbn [Str.trimEnd]. rewrite Hc. cbn [andb tidy]. rewrite Hc.
    destruct (tidy_after_trimEnd false r Hs) as [E'|E']; [now rewrite E'|].
    now rewrite E'.
Qed.

Lemma tidy_after_collapse b t :
  tidy_after b t = true -> Str.collapse_from b t = t.
Proof.
  revert b. induction t as [|c t IH]; intros b; [reflexivity|].
  cbn [tidy_after Str.collapse_from]. destruct (Chr.is_space c) eqn:Hc.
  - intros H. apply andb_true_iff in H as [H1 H2].
    apply andb_true_iff in H1 as [H0 H1].
    apply bool_decide_eq_true_1 in H0. subst c.
    destruct b; [discriminate|]. now rewrite (IH true H2).
  - intros H. now rewrite (IH false H).
Qed.

Lemma tidy_after_trimEnd_id b t :
  tidy_after b t = true -> Str.trimEnd t = t.
Proof.
  revert b. induction t as [|c t IH]; intros b; [reflexivity|].
  cbn [tidy_after Str.trimEnd]. destruct (Chr.is_space c) eqn:Hc.
  - intros H. apply andb_true_iff in H as [H1 H2].
    rewrite (IH true H2). destruct t; [discriminate|reflexivity].
  - intros H. now rewrite (IH false H).
Qed.

Lemma tidy_fixed t :
  tidy t = true -> Str.collapse_ws t = t /\ Str.trim t = t.
Proof.
  destruct t as [|c r]; [now split|].
  cbn [tidy]. intros H. apply andb_true_iff in H as [Hc H].
  apply negb_true_iff in Hc. split.
  - unfold Str.collapse_ws. cbn [Str.collapse_from]. rewrite Hc.
    now rewrite (tidy_after_collapse false r H).
  - unfold Str.trim, Str.trimStart. cbn [Str.skip_ws]. rewrite Hc.
    cbn [Str.trimEnd]. rewrite Hc. cbn [andb].
    now rewrite (tidy_after_trimEnd_id false r H).
Qed.

Lemma trailing_at_head c r :
  Re.trailing_at (String c r) = true -> Chr.is_space c = true.
Proof. cbn [Re.trailing_at]. intros H. now apply andb_true_iff in H as [H _]. Qed.

Lemma strip_trailing_eq t :
  Re.strip_trailing t =
  if Re.trailing_at t then EmptyString
  else match t with
       | EmptyString => EmptyString
       | String c r => String c (Re.strip_trailing r)
       end.
Proof. destruct t; reflexivity. Qed.

Lemma tidy_after_strip b t :
  tidy_after b t = true -> tidy_after b (Re.strip_trailing t) = true.
Proof.
  revert b. induction t as [|c t IH]; intros b H; [exact H|].
  rewrite strip_trailing_eq. destruct (Re.trailing_at (String c t)) eqn:Ht.
  - apply trailing_at_head in Ht. cbn [tidy_after] in H. rewrite Ht in H.
    apply andb_true_iff in H as [H _]. apply andb_true_iff in H as [_ H].
    exact H.
  - cbn [tidy_after] in *. destruct (Chr.is_space c).
    + apply andb_true_iff in H as [H1 H2]. rewrite H1. now apply IH.
    + now apply IH.
Qed.

Lemma tidy_strip t : tidy t = true -> tidy (Re.strip_trailing t) = true.
Proof.
  destruct t as [|c r]; [easy|]. cbn [tidy]. intros H.
  apply andb_true_iff in H as [Hc H]. rewrite strip_trailing_eq.
  destruct (Re.trailing_at (String c r)) eqn:Ht.
  - reflexivity.
  - cbn [tidy]. rewrite Hc. now apply tidy_after_strip.
Qed.

Lemma tidy_clean s : tidy (cleanEmployeeName s) = true.
Proof.
  unfold cleanEmployeeName.
  pose proof (tidy_strip _ (tidy_normalized s)) as H.
  now rewrite (proj2 (tidy_fixed _ H)).
Qed.

Lemma clean_on_tidy u :
  tidy u = true -> cleanEmployeeName u = Re.strip_trailing u.
Proof.
  intros H. unfold cleanEmployeeName.
  destruct (tidy_fixed u H) as [-> ->].
  exact (proj2 (tidy_fixed _ (tidy_strip u H))).
Qed.

Lemma strip_none t :
  Re.has_trailing t = false -> Re.strip_trailing t = t.
Proof.
  induction t as [|c t IH]; [reflexivity|].
  intros H. rewrite strip_trailing_eq.
  cbn [Re.has_trailing] in H. apply orb_false_iff in H as [H1 H2].
  rewrite H1. now rewrite (IH H2).
Qed.

Lemma strip_shorter t :
  Re.has_trailing t = true ->
  (String.length (Re.strip_trailing t) < String.length t)%nat.
Proof.
  induction t as [|c t IH]; [discriminate|].
  intros H. rewrite strip_trailing_eq.
  destruct (Re.trailing_at (String c t)) eqn:Ht.
  - simpl. lia.
  - cbn [Re.has_trailing] in H. rewrite Ht in H. simpl in H.
    specialize (IH H). simpl. lia.
Qed.

(** C4 as stated fails: a name followed by two stray numbers loses one of
    them at each application. *)
Lemma cleanEmployeeName_twice_counterexample :
  cleanEmployeeName "JOHN SMITH 1 2" = "JOHN SMITH 1" /\
  cleanEmployeeName (cleanEmployeeName "JOHN SMITH 1 2") = "JOHN SMITH" /\
  cleanEmployeeName (cleanEmployeeName "JOHN SMITH 1 2")
  <> cleanEmployeeName "JOHN SMITH 1 2".
Proof. repeat split; vm_compute; congruence. Qed.

(** C4, amended. The cleaned name is in normal form, so collapsing and
    trimming it again changes nothing; a second cleanup only strips one
    more trailing token.  Cleanup is therefore idempotent on an input
    exactly when its cleaned name does not itself end in white space
    followed by a bare one- or two-digit number or "fe". *)
Theorem cleanEmployeeName_idempotent_iff s :
  Str.trim (Str.collapse_ws (cleanEmployeeName s)) = cleanEmployeeName s /\
  cleanEmployeeName (cleanEmployeeName s)
  = Re.strip_trailing (cleanEmployeeName s) /\
  (cleanEmployeeName (cleanEmployeeName s) = cleanEmployeeName s <->
   Re.has_trailing (cleanEmployeeName s) = false).
Proof.
  pose proof (tidy_clean s) as Ht.
  set (u := cleanEmployeeName s) in *.
  split; [|split].
  - destruct (tidy_fixed u Ht) as [-> ->]. reflexivity.
  - now apply clean_on_tidy.
  - rewrite (clean_on_tidy u Ht). split.
    + intros E. destruct (Re.has_trailing u) eqn:Hh; [|reflexivity].
      pose proof (strip_shorter u Hh) as Hlt. rewrite E in Hlt. lia.
    + apply strip_none.
Qed.

(* ===================================================================== *)
(** ** The loop over the lines of a page                                 *)
(* ===================================================================== *)

Lemma line_step_effect minDayX dayAnchors st stored :
  line_effect dayAnchors st (line_step minDayX dayAnchors st stored).
Proof.
  unfold line_step.
  destruct (detectShiftLabel _) as [[|c lab]|].
  2: { apply effect_label. discriminate. }
  all: destruct (isNonEmployeeLine _); [apply effect_skip|];
    destruct (looksLikeEmployeeName _); simpl;
    [apply effect_row|apply effect_skip].
Qed.

Lemma line_step_no_label minDayX dayAnchors st stored :
  is_label_line stored = false ->
  currentShift (line_step minDayX dayAnchors st stored) = currentShift st /\
  exists new,
    ls_employees (line_step minDayX dayAnchors st stored)
    = ls_employees st ++ new /\
    forall e, e ∈ new -> emp_shift e = currentShift st.
Proof.
  unfold is_label_line, line_step.
  destruct (detectShiftLabel _) as [[|c lab]|]; [|discriminate|]; intros _.
  all: destruct (isNonEmployeeLine _);
    [split; [reflexivity|exists []; split; [now rewrite app_nil_r|]];
     intros e He; inversion He|].
  all: destruct (looksLikeEmployeeName _); simpl.
  all: split; [reflexivity|].
  all: first
    [ eexists [_]; split; [reflexivity|];
      intros e He; apply list_elem_of_singleton in He; now subst
    | exists []; split; [now rewrite app_nil_r|];
      intros e He; inversion He ].
Qed.

Lemma line_step_grows minDayX dayAnchors st stored :
  exists new,
    ls_employees (line_step minDayX dayAnchors st stored)
    = ls_employees st ++ new.
Proof.
  destruct (line_step_effect minDayX dayAnchors st stored); simpl.
  - exists []. now rewrite app_nil_r.
  - exists []. now rewrite app_nil_r.
  - eexists. reflexivity.
Qed.

Lemma run_lines_app minDayX dayAnchors l1 l2 st :
  run_lines minDayX dayAnchors (l1 ++ l2) st
  = run_lines minDayX dayAnchors l2 (run_lines minDayX dayAnchors l1 st).
Proof. unfold run_lines. apply fold_left_app. Qed.

Lemma run_lines_grows minDayX dayAnchors ls st :
  exists new,
    ls_employees (run_lines minDayX dayAnchors ls st)
    = ls_employees st ++ new.
Proof.
  revert st. induction ls as [|l ls IH]; intros st; simpl.
  - exists []. now rewrite app_nil_r.
  - destruct (IH (line_step minDayX dayAnchors st l)) as [n2 E2].
    destruct (line_step_grows minDayX dayAnchors st l) as [n1 E1].
    exists (n1 ++ n2). unfold run_lines in *. rewrite E2, E1.
    now rewrite app_assoc.
Qed.

Lemma run_lines_no_label minDayX dayAnchors ls st :
  Forall (fun l => is_label_line l = false) ls ->
  currentShift (run_lines minDayX dayAnchors ls st) = currentShift st /\
  exists new,
    ls_employees (run_lines minDayX dayAnchors ls st)
    = ls_employees st ++ new /\
    forall e, e ∈ new -> emp_shift e = currentShift st.
Proof.
  intros H. revert st. induction H as [|l ls Hl Hls IH]; intros st; simpl.
  - split; [reflexivity|]. exists []. split; [now rewrite app_nil_r|].
    intros e He. inversion He.
  - destruct (line_step_no_label minDayX dayAnchors st l Hl)
      as (Hc1 & n1 & E1 & S1).
    destruct (IH (line_step minDayX dayAnchors st l)) as (Hc2 & n2 & E2 & S2).
    unfold run_lines in *. split; [congruence|].
    exists (n1 ++ n2). split; [rewrite E2, E1; now rewrite app_assoc|].
    intros e He. apply elem_of_app in He as [He|He].
    + now apply S1.
    + rewrite <- Hc1. now apply S2.
Qed.

(* ===================================================================== *)
(** ** Shifts of employees are registered                                *)
(* ===================================================================== *)

Lemma shifts_cover_effect dayAnchors st st' :
  line_effect dayAnchors st st' ->
  shifts_cover (ls_employees st) (ls_shifts st) ->
  shifts_cover (ls_employees st') (ls_shifts st').
Proof.
  intros [lab _| |name right] Hc; simpl.
  - intros e He. apply elem_of_union_r. now apply Hc.
  - exact Hc.
  - intros e He. apply elem_of_app in He as [He|He].
    + apply elem_of_union_r. now apply Hc.
    + apply list_elem_of_singleton in He. subst e. simpl.
      apply elem_of_union_l. now apply elem_of_singleton.
Qed.

Lemma shifts_cover_run_lines minDayX dayAnchors ls st :
  shifts_cover (ls_employees st) (ls_shifts st) ->
  shifts_cover (ls_employees (run_lines minDayX dayAnchors ls st))
               (ls_shifts (run_lines minDayX dayAnchors ls st)).
Proof.
  revert st. induction ls as [|l ls IH]; intros st Hc; [exact Hc|].
  apply IH. eapply shifts_cover_effect; [apply line_step_effect|exact Hc].
Qed.

Lemma detect_month_year_frame items st :
  employees (detect_month_year items st) = employees st /\
  shifts (detect_month_year items st) = shifts st.
Proof.
  unfold detect_month_year.
  destruct (Re.month_year_match _) as [[m1 m2]|]; [|now split].
  destruct (year_unset _); now split.
Qed.

Lemma shifts_cover_page_step n st tc :
  shifts_cover (employees st) (shifts st) ->
  shifts_cover (employees (page_step_upto n st tc))
               (shifts (page_step_upto n st tc)).
Proof.
  intros Hc. unfold page_step_upto.
  destruct (detect_month_year_frame (page_items tc) st) as [Ee Es].
  destruct (pickBestDayHeaderLine _) as [headerLine|].
  - simpl. unfold page_loop. apply shifts_cover_run_lines.
    simpl. now rewrite Ee, Es.
  - now rewrite Ee, Es.
Qed.

Lemma shifts_cover_pages pages st :
  shifts_cover (employees st) (shifts st) ->
  shifts_cover (employees (fold_left page_step pages st))
               (shifts (fold_left page_step pages st)).
Proof.
  revert st. induction pages as [|tc pages IH]; intros st Hc; [exact Hc|].
  simpl. apply IH. now apply shifts_cover_page_step.
Qed.

Lemma shifts_cover_init : shifts_cover (employees init_state) (shifts init_state).
Proof. intros e He. inversion He. Qed.

(** Stopping the loop of the last page after all its lines is running the
    page to its end, so [state_at] passes through the states between the
    pages too. *)
Lemma page_step_upto_all st tc n :
  (length (lines_in_order (groupByLine (page_items tc))) <= n)%nat ->
  page_step_upto (Some n) st tc = page_step st tc.
Proof.
  intros Hn. unfold page_step, page_step_upto, page_loop.
  destruct (pickBestDayHeaderLine _); [|reflexivity].
  now rewrite take_ge.
Qed.

Lemma state_at_page_end pages k tc n :
  pages !! k = Some tc ->
  (length (lines_in_order (groupByLine (page_items tc))) <= n)%nat ->
  state_at pages k n = fold_left page_step (take (S k) pages) init_state.
Proof.
  intros Hk Hn. unfold state_at. rewrite Hk, (page_step_upto_all _ _ _ Hn).
  rewrite (take_S_r _ _ _ Hk), fold_left_app. reflexivity.
Qed.

Lemma state_at_end pages j : state_at pages (length pages) j = run_pages pages.
Proof.
  unfold state_at, run_pages.
  rewrite (lookup_ge_None_2 pages (length pages)) by lia.
  now rewrite firstn_all.
Qed.

(** C8. At every point of the parse (after any number of pages and any
    number of lines of the next page) and in the returned result, every
    employee's shift is a member of the set of shifts. *)
Theorem employee_shift_registered pages :
  (forall k j,
     shifts_cover (employees (state_at pages k j))
                  (shifts (state_at pages k j))) /\
  (forall nowYear nowMonth,
     shifts_cover (res_employees (parseSchedulePDF nowYear nowMonth pages))
                  (res_shifts (parseSchedulePDF nowYear nowMonth pages))).
Proof.
  split.
  - intros k j. unfold state_at.
    pose proof (shifts_cover_pages (take k pages) init_state shifts_cover_init)
      as Hb.
    destruct (pages !! k) as [tc|]; [|exact Hb].
    now apply shifts_cover_page_step.
  - intros nowYear nowMonth. unfold parseSchedulePDF, result_of, run_pages.
    simpl. apply shifts_cover_pages, shifts_cover_init.
Qed.

(* ===================================================================== *)
(** ** Codes of employees                                                *)
(* ===================================================================== *)

Lemma length_map f s : String.length (Str.map f s) = String.length s.
Proof. induction s as [|c s IH]; simpl; congruence. Qed.

Lemma all_digit_upper s :
  Str.all Chr.is_digit (Str.toUpperCase s) = Str.all Chr.is_digit s.
Proof.
  unfold Str.toUpperCase. induction s as [|c s IH]; [reflexivity|].
  cbn [Str.map Str.all]. now rewrite digit_to_upper, IH.
Qed.

Lemma all_alpha_upper s :
  Str.all Chr.is_alpha (Str.toUpperCase s) = Str.all Chr.is_alpha s.
Proof.
  unfold Str.toUpperCase. induction s as [|c s IH]; [reflexivity|].
  cbn [Str.map Str.all]. now rewrite alpha_to_upper, IH.
Qed.

Lemma letters_then_digits_upper n s :
  Re.letters_then_digits n (Str.toUpperCase s) = Re.letters_then_digits n s.
Proof.
  revert n. induction s as [|c s IH]; intros n; [reflexivity|].
  change (Str.toUpperCase (String c s))
    with (String (Chr.to_upper c) (Str.toUpperCase s)).
  cbn [Re.letters_then_digits]. rewrite alpha_to_upper.
  destruct (Chr.is_alpha c).
  - destruct n; [reflexivity|apply IH].
  - change (String (Chr.to_upper c) (Str.toUpperCase s))
      with (Str.toUpperCase (String c s)).
    rewrite all_digit_upper. unfold Str.toUpperCase. now rewrite length_map.
Qed.

Lemma alnum_code_upper t :
  Re.alnum_code (Str.toUpperCase t) = Re.alnum_code t.
Proof.
  destruct t as [|c r]; [reflexivity|].
  change (Str.toUpperCase (String c r))
    with (String (Chr.to_upper c) (Str.toUpperCase r)).
  cbn [Re.alnum_code].
  now rewrite alpha_to_upper, letters_then_digits_upper.
Qed.

Lemma alpha_code_upper t :
  Re.alpha_code (Str.toUpperCase t) = Re.alpha_code t.
Proof.
  unfold Re.alpha_code. rewrite all_alpha_upper.
  unfold Str.toUpperCase. now rewrite length_map.
Qed.

Lemma day_token_upper t :
  Re.day_token (Str.toUpperCase t) = Re.day_token t.
Proof.
  destruct t as [|a [|b [|c r]]]; try reflexivity.
  - apply digit_to_upper.
  - cbn [Str.toUpperCase Str.map Re.day_token].
    unfold Str.toUpperCase. cbn [Str.map]. now rewrite !digit_to_upper.
Qed.

Lemma normalizeCode_normal s v : normalizeCode s = Some v -> normal_code v.
Proof.
  unfold normalizeCode. set (t := Str.trim s).
  destruct (Str.is_empty t) eqn:He; [discriminate|].
  destruct (Re.day_token t) eqn:Hd; [discriminate|].
  destruct (Re.month_name_only t); [discriminate|].
  destruct (Re.alnum_code t || Re.alpha_code t) eqn:Hp; [|discriminate].
  intros [= <-]. repeat split.
  - intros E. apply is_empty_true in E.
    unfold Str.toUpperCase in E. rewrite is_empty_map in E. congruence.
  - apply toUpperCase_idem.
  - now rewrite alnum_code_upper, alpha_code_upper.
  - now rewrite day_token_upper.
Qed.

Lemma codes_ok_empty : codes_ok ∅.
Proof. intros k v H. rewrite lookup_empty in H. discriminate. Qed.

Lemma codes_ok_step dayAnchors (codes : gmap string string) t :
  codes_ok codes -> codes_ok (code_step dayAnchors codes t).
Proof.
  intros Hc. unfold code_step.
  destruct (normalizeCode (t_str t)) as [code|] eqn:Hn; [|exact Hc].
  destruct (Str.is_empty code); [exact Hc|].
  destruct (nearestDay _ _) as [day|]; [|exact Hc].
  destruct (day =? 0); [exact Hc|].
  destruct ((1 <=? day) && (day <=? 31)) eqn:Hr; [|exact Hc].
  apply andb_true_iff in Hr as [H1 H2].
  apply Z.leb_le in H1. apply Z.leb_le in H2.
  intros k v Hk. destruct (decide (pretty day = k)) as [<-|Hne].
  - rewrite lookup_insert_eq in Hk. injection Hk as <-.
    split; [|now apply (normalizeCode_normal _ _ Hn)].
    exists day. split; [lia|reflexivity].
  - rewrite lookup_insert_ne in Hk by exact Hne. now apply Hc.
Qed.

Lemma codes_ok_row dayAnchors right : codes_ok (row_codes dayAnchors right).
Proof.
  unfold row_codes. generalize (∅ : gmap string string), codes_ok_empty.
  induction right as [|t right IH]; intros codes Hc; [exact Hc|].
  simpl. apply IH. now apply codes_ok_step.
Qed.

Lemma codes_ok_effect dayAnchors st st' :
  line_effect dayAnchors st st' ->
  Forall (fun e => codes_ok (emp_codes e)) (ls_employees st) ->
  Forall (fun e => codes_ok (emp_codes e)) (ls_employees st').
Proof.
  intros [lab _| |name right] Hc; simpl; try exact Hc.
  apply Forall_app. split; [exact Hc|].
  apply Forall_singleton. simpl. apply codes_ok_row.
Qed.

Lemma codes_ok_run_lines minDayX dayAnchors ls st :
  Forall (fun e => codes_ok (emp_codes e)) (ls_employees st) ->
  Forall (fun e => codes_ok (emp_codes e))
         (ls_employees (run_lines minDayX dayAnchors ls st)).
Proof.
  revert st. induction ls as [|l ls IH]; intros st Hc; [exact Hc|].
  apply IH. eapply codes_ok_effect; [apply line_step_effect|exact Hc].
Qed.

Lemma codes_ok_page_step st tc :
  Forall (fun e => codes_ok (emp_codes e)) (employees st) ->
  Forall (fun e => codes_ok (emp_codes e)) (employees (page_step st tc)).
Proof.
  intros Hc. unfold page_step, page_step_upto.
  destruct (detect_month_year_frame (page_items tc) st) as [Ee _].
  destruct (pickBestDayHeaderLine _) as [headerLine|].
  - simpl. unfold page_loop. apply codes_ok_run_lines. simpl. now rewrite Ee.
  - now rewrite Ee.
Qed.

Lemma codes_ok_pages pages st :
  Forall (fun e => codes_ok (emp_codes e)) (employees st) ->
  Forall (fun e => codes_ok (emp_codes e))
         (employees (fold_left page_step pages st)).
Proof.
  revert st. induction pages as [|tc pages IH]; intros st Hc; [exact Hc|].
  simpl. apply IH. now apply codes_ok_page_step.
Qed.

(** C9. In the result of every document, every key of an employee's codes
    is [String(day)] for a day number from 1 to 31, and every value is a
    normalized code: not empty, upper-cased, of an accepted shape, and not
    a bare number of one or two digits. *)
Theorem employee_codes_well_formed nowYear nowMonth pages e k v :
  e ∈ res_employees (parseSchedulePDF nowYear nowMonth pages) ->
  emp_codes e !! k = Some v ->
  (exists d : Z, 1 <= d <= 31 /\ k = pretty d) /\
  v <> "" /\ Str.toUpperCase v = v /\
  (Re.alnum_code v || Re.alpha_code v = true) /\ Re.day_token v = false.
Proof.
  intros He Hk. unfold parseSchedulePDF, result_of, run_pages in He.
  simpl in He.
  pose proof (codes_ok_pages pages init_state (Forall_nil_2 _)) as Hall.
  rewrite Forall_forall in Hall. exact (Hall e He k v Hk).
Qed.

Lemma employee_codes_well_formed_witness :
  mkEmployee "JOHN SMITH" "B" {[ "1" := "FG" ]}
    ∈ res_employees (parseSchedulePDF 2026 10 [sample_page1]) /\
  ((exists d : Z, 1 <= d <= 31 /\ "1" = pretty d) /\
   "FG" <> "" /\ Str.toUpperCase "FG" = "FG" /\
   (Re.alnum_code "FG" || Re.alpha_code "FG" = true) /\
   Re.day_token "FG" = false).
Proof.
  assert (Hin : mkEmployee "JOHN SMITH" "B" {[ "1" := "FG" ]}
                  ∈ res_employees (parseSchedulePDF 2026 10 [sample_page1])).
  { vm_compute. apply list_elem_of_here. }
  split; [exact Hin|].
  apply (employee_codes_well_formed 2026 10 [sample_page1] _ "1" "FG" Hin).
  vm_compute. reflexivity.
Defined.

(* ===================================================================== *)
(** ** Pages without header                                              *)
(* ===================================================================== *)

(** C7 as stated fails: a title page has no header line, and still sets
    the detected month and year. *)
Lemma headerless_page_counterexample :
  Forall (fun l => (day_count l < 20)%nat)
         (map snd (groupByLine
                     (page_items (title_page "MONTHLY SCHEDULE January 2024"))))
  /\
  detectedMonth init_state = None /\ detectedYear init_state = None /\
  detectedMonth
    (page_step init_state (title_page "MONTHLY SCHEDULE January 2024"))
  = Some 1 /\
  detectedYear
    (page_step init_state (title_page "MONTHLY SCHEDULE January 2024"))
  = Some 2024.
Proof.
  split; [refine (bool_decide_unpack _ _); vm_compute; exact I|].
  repeat split; vm_compute; reflexivity.
Qed.

(** C7, amended. A page on which no line reaches the 20-count threshold
    leaves the employee list and the set of shifts unchanged; the month
    and year detection still runs on its text, so the page changes the
    state at most by that detection, and not at all when a year is already
    set or its text shows no month and year. *)
Theorem headerless_page_frame st tc :
  Forall (fun l => (day_count l < 20)%nat)
         (map snd (groupByLine (page_items tc))) ->
  employees (page_step st tc) = employees st /\
  shifts (page_step st tc) = shifts st /\
  page_step st tc = detect_month_year (page_items tc) st /\
  (year_unset (detectedYear st) = false -> page_step st tc = st) /\
  (Re.month_year_match (Str.join_sp (map t_str (page_items tc))) = None ->
   page_step st tc = st).
Proof.
  intros Hlow. rewrite Forall_forall in Hlow.
  assert (E : page_step st tc = detect_month_year (page_items tc) st).
  { unfold page_step, page_step_upto.
    now rewrite (pick_none_below _ Hlow). }
  rewrite E.
  destruct (detect_month_year_frame (page_items tc) st) as [Ee Es].
  repeat split; try assumption.
  - intros Hy. unfold detect_month_year.
    destruct (Re.month_year_match _) as [[m1 m2]|]; [|reflexivity].
    now rewrite Hy.
  - intros Hm. unfold detect_month_year. now rewrite Hm.
Qed.

Lemma headerless_page_frame_witness :
  Forall (fun l => (day_count l < 20)%nat)
         (map snd (groupByLine (page_items sample_page_short))) /\
  employees (page_step (run_pages [sample_page1]) sample_page_short)
  = employees (run_pages [sample_page1]) /\
  shifts (page_step (run_pages [sample_page1]) sample_page_short)
  = shifts (run_pages [sample_page1]).
Proof.
  assert (H : Forall (fun l => (day_count l < 20)%nat)
                (map snd (groupByLine (page_items sample_page_short)))).
  { refine (bool_decide_unpack _ _). vm_compute. exact I. }
  split; [exact H|].
  pose proof (headerless_page_frame (run_pages [sample_page1])
                sample_page_short H) as (He & Hs & _).
  split; assumption.
Defined.

(* ===================================================================== *)
(** ** The current shift at a page boundary                              *)
(* ===================================================================== *)

(** C1 as stated fails: page 1 ends under shift "B", page 2 has no label
    line, and its employee is filed under "Unknown". *)
Lemma shift_carry_counterexample :
  page_end_shift init_state sample_page1 = Some "B" /\
  Forall (fun l => is_label_line l = false)
         (lines_in_order (groupByLine (page_items sample_page2))) /\
  map (fun e => (emp_name e, emp_shift e))
      (res_employees (parseSchedulePDF 2026 10 [sample_page1; sample_page2]))
  = [("JOHN SMITH", "B"); ("JANE DOE", "Unknown")].
Proof.
  split; [vm_compute; reflexivity|].
  split; [refine (bool_decide_unpack _ _); vm_compute; exact I|].
  vm_compute. reflexivity.
Qed.

(** C1, amended. The current shift does not carry across a page boundary:
    on every page with an accepted header the loop over the lines starts
    again from "Unknown", so the employee rows met before the first label
    line of the page are filed under "Unknown", whatever the state the
    previous pages left. *)
Theorem shift_restarts_on_each_page st tc headerLine pre rest :
  pickBestDayHeaderLine (groupByLine (page_items tc)) = Some headerLine ->
  lines_in_order (groupByLine (page_items tc)) = pre ++ rest ->
  Forall (fun l => is_label_line l = false) pre ->
  exists rows_pre rows_rest,
    employees (page_step_upto (Some (length pre)) st tc)
    = employees st ++ rows_pre /\
    employees (page_step st tc) = employees st ++ rows_pre ++ rows_rest /\
    forall e, e ∈ rows_pre -> emp_shift e = "Unknown".
Proof.
  intros Hpick Hlines Hpre.
  destruct (detect_month_year_frame (page_items tc) st) as [Ee _].
  unfold page_step, page_step_upto, page_loop.
  rewrite Hpick, Hlines, take_app_length, run_lines_app. cbn [employees].
  set (m := Math_min _). set (a := dayAnchors_of _).
  set (st0 := page_start (detect_month_year (page_items tc) st)).
  destruct (run_lines_no_label m a pre st0 Hpre) as (_ & rows_pre & E1 & S1).
  destruct (run_lines_grows m a rest (run_lines m a pre st0))
    as [rows_rest E2].
  exists rows_pre, rows_rest. split; [|split].
  - rewrite E1. subst st0. simpl. now rewrite Ee.
  - rewrite E2, E1. subst st0. simpl. now rewrite Ee, app_assoc.
  - exact S1.
Qed.

Lemma shift_restarts_on_each_page_witness :
  exists rows_pre rows_rest,
    employees (page_step_upto
                 (Some (length (lines_in_order
                                  (groupByLine (page_items sample_page2)))))
                 (run_pages [sample_page1]) sample_page2)
    = employees (run_pages [sample_page1]) ++ rows_pre /\
    employees (page_step (run_pages [sample_page1]) sample_page2)
    = employees (run_pages [sample_page1]) ++ rows_pre ++ rows_rest /\
    forall e, e ∈ rows_pre -> emp_shift e = "Unknown".
Proof.
  apply (shift_restarts_on_each_page (run_pages [sample_page1]) sample_page2
           (default [] (pickBestDayHeaderLine
                          (groupByLine (page_items sample_page2))))
           (lines_in_order (groupByLine (page_items sample_page2))) []).
  - vm_compute. reflexivity.
  - now rewrite app_nil_r.
  - refine (bool_decide_unpack _ _). vm_compute. exact I.
Defined.

(* ===================================================================== *)
(** ** Month and year                                                    *)
(* ===================================================================== *)

(** C2 fails on the code: a title that reads "January 0000" sets the
    detected month to 1 and the detected year to 0; the result keeps the
    detected month and replaces the year by the system year (here 2026,
    when the system month would have been 11). *)
Lemma month_year_mixed_at_year_0000 :
  Re.month_year_match "January 0000" = Some ("January", "0000") /\
  detectedMonth (run_pages [title_page "January 0000"]) = Some 1 /\
  detectedYear (run_pages [title_page "January 0000"]) = Some 0 /\
  res_month (parseSchedulePDF 2026 10 [title_page "January 0000"]) = 1 /\
  res_year (parseSchedulePDF 2026 10 [title_page "January 0000"]) = 2026.
Proof. repeat split; vm_compute; reflexivity. Qed.

Lemma to_lower_of_upper c : Chr.to_lower (Chr.to_upper c) = Chr.to_lower c.
Proof. each_char c. Qed.

Lemma eq_ci_lower a b :
  Chr.eq_ci a b = true -> Chr.to_lower a = Chr.to_lower b.
Proof.
  unfold Chr.eq_ci. intros H. apply bool_decide_eq_true_1 in H.
  rewrite <- (to_lower_of_upper a), <- (to_lower_of_upper b). now rewrite H.
Qed.

(** Text matched by a literal under the [i] flag equals it up to case. *)
Lemma startsWith_ci_lower p s :
  Str.startsWith_ci p s = true ->
  Str.toLowerCase (Str.take (String.length p) s) = Str.toLowerCase p.
Proof.
  revert s. induction p as [|a p IH]; intros s; [reflexivity|].
  destruct s as [|b s]; [discriminate|].
  cbn [Str.startsWith_ci]. intros H. apply andb_true_iff in H as [H1 H2].
  cbn [String.length Str.take]. unfold Str.toLowerCase in *.
  cbn [Str.map]. rewrite (IH s H2). f_equal. symmetry.
  now apply eq_ci_lower.
Qed.

Lemma first_alt_some s names m1 m2 :
  Re.first_alt s names = Some (m1, m2) ->
  exists name, name ∈ names /\ Re.month_alt s name = Some (m1, m2).
Proof.
  induction names as [|n names IH]; [discriminate|].
  cbn [Re.first_alt]. destruct (Re.month_alt s n) as [r|] eqn:E.
  - intros [= ->]. exists n. split; [now left|exact E].
  - intros H. destruct (IH H) as (name & Hin & Hm).
    exists name. split; [now right|exact Hm].
Qed.

Lemma month_alt_name s name m1 m2 :
  Re.month_alt s name = Some (m1, m2) ->
  Str.toLowerCase m1 = Str.toLowerCase name.
Proof.
  unfold Re.month_alt, Re.word_prefix_ci.
  destruct (Str.startsWith_ci name s) eqn:Hp; [|discriminate].
  cbn [andb]. destruct (match Str.drop _ _ with "" => _ | _ => _ end);
    [|discriminate].
  destruct (Re.ws_year _); [|discriminate].
  intros [= <- _]. now apply startsWith_ci_lower.
Qed.

Lemma month_year_from_some b s m1 m2 :
  Re.month_year_from b s = Some (m1, m2) ->
  exists name, name ∈ Re.month_names /\
               Str.toLowerCase m1 = Str.toLowerCase name.
Proof.
  revert b. induction s as [|c s IH]; intros b; [discriminate|].
  cbn [Re.month_year_from].
  destruct (if b then None else Re.first_alt (String c s) Re.month_names)
    as [r|] eqn:E.
  - intros [= ->]. destruct b; [discriminate|].
    destruct (first_alt_some _ _ _ _ E) as (name & Hin & Hm).
    exists name. split; [exact Hin|]. now apply (month_alt_name _ _ _ _ Hm).
  - apply IH.
Qed.

Lemma month_capture_number s m1 m2 :
  Re.month_year_match s = Some (m1, m2) ->
  exists m, monthNameToNumber m1 = Some m /\ 1 <= m <= 12.
Proof.
  intros H. destruct (month_year_from_some _ _ _ _ H) as (name & Hin & E).
  unfold monthNameToNumber. rewrite E. unfold Re.month_names in Hin.
  repeat (apply elem_of_cons in Hin as [->|Hin];
          [eexists; split; [vm_compute; reflexivity|lia]|]).
  inversion Hin.
Qed.

(** X12. Every month name the month and year expression can capture is
    known to [monthNameToNumber], which gives it a number from 1 to 12. *)
Theorem matched_month_has_number s m1 m2 :
  Re.month_year_match s = Some (m1, m2) ->
  exists m, monthNameToNumber m1 = Some m /\ 1 <= m <= 12.
Proof. apply month_capture_number. Qed.

Lemma page_step_month_year n st tc :
  detectedMonth (page_step_upto n st tc)
  = detectedMonth (detect_month_year (page_items tc) st) /\
  detectedYear (page_step_upto n st tc)
  = detectedYear (detect_month_year (page_items tc) st).
Proof.
  unfold page_step_upto. destruct (pickBestDayHeaderLine _); now split.
Qed.

Lemma month_year_from_pages_mono seen more st :
  month_year_from_pages seen st -> month_year_from_pages (seen ++ more) st.
Proof.
  intros [H|(tc & m & y & Hin & H)]; [now left|].
  right. exists tc, m, y. split; [|exact H].
  apply elem_of_app. now left.
Qed.

Lemma month_year_from_pages_step seen st tc :
  month_year_from_pages seen st ->
  month_year_from_pages (seen ++ [tc]) (page_step st tc).
Proof.
  intros Hst. unfold month_year_from_pages, page_step.
  destruct (page_step_month_year None st tc) as [-> ->].
  unfold detect_month_year.
  destruct (Re.month_year_match _) as [[m1 m2]|] eqn:Hm;
    [|now apply month_year_from_pages_mono].
  destruct (year_unset (detectedYear st));
    [|now apply month_year_from_pages_mono].
  destruct (month_capture_number _ _ _ Hm) as (m & Hnum & Hrange).
  right. exists tc, m, (Str.Number m2). cbn [detectedMonth detectedYear].
  split; [apply elem_of_app; right; now left|].
  split; [unfold page_month_year; now rewrite Hm, Hnum|].
  now repeat split.
Qed.

Lemma month_year_from_pages_fold pages seen st :
  month_year_from_pages seen st ->
  month_year_from_pages (seen ++ pages) (fold_left page_step pages st).
Proof.
  revert seen st. induction pages as [|tc pages IH]; intros seen st H.
  - now rewrite app_nil_r.
  - simpl. replace (seen ++ tc :: pages) with ((seen ++ [tc]) ++ pages)
      by now rewrite <- app_assoc.
    apply IH. now apply month_year_from_pages_step.
Qed.

(** X13. The month and the year of the result come from the same source,
    the system date or the text of one page, except that a year read as 0
    is replaced by the system year while the month of the text is kept. *)
Lemma month_year_paired_unless_zero nowYear nowMonth pages :
  (res_month (parseSchedulePDF nowYear nowMonth pages) = nowMonth + 1 /\
   res_year (parseSchedulePDF nowYear nowMonth pages) = nowYear) \/
  exists tc m y,
    tc ∈ pages /\ page_month_year tc = Some (m, y) /\
    res_month (parseSchedulePDF nowYear nowMonth pages) = m /\
    res_year (parseSchedulePDF nowYear nowMonth pages)
    = (if y =? 0 then nowYear else y).
Proof.
  unfold parseSchedulePDF, result_of, run_pages. cbn [res_month res_year].
  assert (H0 : month_year_from_pages [] init_state) by (left; now split).
  destruct (month_year_from_pages_fold pages [] init_state H0)
    as [[Em Ey]|(tc & m & y & Hin & Hp & Hr & Em & Ey)].
  - left. now rewrite Em, Ey.
  - right. exists tc, m, y. rewrite Em, Ey. cbn [or_else].
    repeat split; try assumption.
    destruct (Z.eqb_spec m 0); [lia|reflexivity].
Qed.

(* ===================================================================== *)
(** ** Day anchors are in ascending order                                *)
(* ===================================================================== *)

Section Sorting.

Context {A : Type} (key : A -> Z).

Local Abbreviation le := (fun a b : A => key a <=? key b).

Lemma insert_sorted_elem a l b :
  b ∈ insert_sorted le a l -> b = a \/ b ∈ l.
Proof.
  induction l as [|c l IH]; simpl.
  - intros H. apply list_elem_of_singleton in H. now left.
  - destruct (le a c).
    + intros H. apply elem_of_cons in H as [->|H]; [now left|now right].
    + intros H. apply elem_of_cons in H as [->|H].
      * right. now left.
      * destruct (IH H) as [->|H']; [now left|right; now right].
Qed.

Lemma insert_sorted_sorted a l :
  StronglySorted (fun u v => key u <= key v) l ->
  StronglySorted (fun u v => key u <= key v) (insert_sorted le a l).
Proof.
  induction 1 as [|c l Hs IH Hc]; simpl.
  - repeat constructor.
  - destruct (Z.leb_spec (key a) (key c)).
    + constructor; [now constructor|].
      constructor; [assumption|].
      rewrite Forall_forall in Hc. apply Forall_forall. intros b Hb.
      specialize (Hc b Hb). lia.
    + constructor; [exact IH|].
      apply Forall_forall. intros b Hb.
      destruct (insert_sorted_elem a l b Hb) as [->|Hb']; [lia|].
      rewrite Forall_forall in Hc. now apply Hc.
Qed.

Lemma sort_with_sorted l :
  StronglySorted (fun u v => key u <= key v) (sort_with le l).
Proof.
  induction l as [|a l IH]; simpl; [constructor|].
  now apply insert_sorted_sorted.
Qed.

End Sorting.

Lemma dayAnchors_ascending headerLine :
  ascending_x (dayAnchors_of headerLine).
Proof.
  unfold dayAnchors_of.
  pose proof (sort_with_sorted t_x (List.filter is_day_token headerLine))
    as Hs.
  fold sort_by_x in Hs. unfold sort_by_x in *.
  set (l := sort_with _ _) in *. clearbody l.
  intros i j a b Hij Ha Hb.
  rewrite list_lookup_fmap in Ha, Hb.
  destruct (l !! i) as [ta|] eqn:Ei; [|discriminate].
  destruct (l !! j) as [tb|] eqn:Ej; [|discriminate].
  injection Ha as <-. injection Hb as <-. simpl.
  revert i j Hij Ei Ej. induction Hs as [|c l Hs IH Hc]; intros i j Hij Ei Ej.
  - discriminate.
  - destruct j as [|j]; [lia|]. destruct i as [|i].
    + simpl in Ei, Ej. injection Ei as ->.
      rewrite Forall_forall in Hc. apply Hc.
      apply list_elem_of_lookup. now exists j.
    + simpl in Ei, Ej. apply (IH i j); [lia|assumption|assumption].
Qed.

(* ===================================================================== *)
(** ** The functions on the scenarios of the specification               *)
(* ===================================================================== *)

Example cleanEmployeeName_samples :
  cleanEmployeeName "JOHN   SMITH  2" = "JOHN SMITH" /\
  cleanEmployeeName "MARY fe" = "MARY" /\
  cleanEmployeeName "ANA 123" = "ANA 123".
Proof. repeat split; vm_compute; reflexivity. Qed.

Example detectShiftLabel_samples :
  detectShiftLabel "SHIFT B" = Some "B" /\
  detectShiftLabel "shift   b2" = Some "b2" /\
  detectShiftLabel "gse" = Some "GSE" /\
  detectShiftLabel "SHIFT" = None /\
  detectShiftLabel "JOHN SMITH" = None.
Proof. repeat split; vm_compute; reflexivity. Qed.

Example isNonEmployeeLine_samples :
  isNonEmployeeLine "TOTAL 45 12 3" = true /\
  isNonEmployeeLine "1 2 3 4 5 6 7" = true /\
  isNonEmployeeLine "1 2 3 4 5" = false /\
  isNonEmployeeLine "JOHN SMITH FG" = false.
Proof. repeat split; vm_compute; reflexivity. Qed.

Example normalizeCode_samples :
  normalizeCode "fg" = Some "FG" /\ normalizeCode "b2" = Some "B2" /\
  normalizeCode "3" = None /\ normalizeCode "May" = None /\
  normalizeCode "abcdefg" = None /\ normalizeCode "a1234" = None.
Proof. repeat split; vm_compute; reflexivity. Qed.

Example month_year_match_samples :
  Re.month_year_match "MONTHLY SCHEDULE January 2024"
  = Some ("January", "2024") /\
  Re.month_year_match "xJanuary 2024" = None /\
  Re.month_year_match "January2024" = None.
Proof. repeat split; vm_compute; reflexivity. Qed.

Example nearestDay_samples :
  nearestDay 0 [mkAnchor 1 0] = Some 1 /\
  nearestDay 11 [mkAnchor 1 0] = Some 1 /\
  nearestDay 13 [mkAnchor 1 0] = None /\
  nearestDay 0 [] = None.
Proof. repeat split; vm_compute; reflexivity. Qed.

(** The first detected month and year are kept (scenario B), and the
    number of days follows the calendar. *)
Example first_month_year_wins :
  res_month (parseSchedulePDF 2026 10
               [title_page "MONTHLY SCHEDULE January 2024";
                title_page "MONTHLY SCHEDULE February 2024"]) = 1 /\
  res_year (parseSchedulePDF 2026 10
              [title_page "MONTHLY SCHEDULE January 2024";
               title_page "MONTHLY SCHEDULE February 2024"]) = 2024 /\
  last_day 2024 2 = 29 /\ last_day 2023 2 = 28.
Proof. repeat split; vm_compute; reflexivity. Qed.

Example header_with_19_rejected :
  pickBestDayHeaderLine (groupByLine (page_items sample_page_short)) = None /\
  res_employees (parseSchedulePDF 2026 10 [sample_page_short]) = [].
Proof. split; vm_compute; reflexivity. Qed.

(* ===================================================================== *)
(** ** Line grouper                                                      *)
(* ===================================================================== *)

Lemma yKey_cases it :
  (yKey it = t_y it \/ yKey it = t_y it + 1) /\ yKey it mod 2 = 0.
Proof.
  unfold yKey. split.
  - pose proof (Z.div_mod (t_y it + 1) 2 ltac:(lia)) as E.
    pose proof (Z.mod_pos_bound (t_y it + 1) 2 ltac:(lia)) as B. lia.
  - now rewrite Z.mod_mul by lia.
Qed.

Lemma map_get_push k it (m : LineMap) k' :
  map_get k' (map_push k it m)
  = if k' =? k then Some (default [] (map_get k m) ++ [it])
    else map_get k' m.
Proof.
  induction m as [|[k0 l] m IH]; simpl.
  - destruct (Z.eqb_spec k' k); reflexivity.
  - destruct (Z.eqb_spec k k0) as [->|Hne]; simpl.
    + destruct (Z.eqb_spec k' k0); reflexivity.
    + rewrite IH. destruct (Z.eqb_spec k' k0) as [->|Hne'].
      * destruct (Z.eqb_spec k0 k); [congruence|reflexivity].
      * reflexivity.
Qed.

Lemma groupByLine_snoc items it :
  groupByLine (items ++ [it]) = map_push (yKey it) it (groupByLine items).
Proof. unfold groupByLine. now rewrite fold_left_app. Qed.

Lemma filter_snoc {A} (f : A -> bool) l a :
  List.filter f (l ++ [a]) = List.filter f l ++ (if f a then [a] else []).
Proof. rewrite List.filter_app. reflexivity. Qed.

Lemma groupByLine_get items k :
  map_get k (groupByLine items)
  = match List.filter (fun it => yKey it =? k) items with
    | [] => None
    | l => Some l
    end.
Proof.
  induction items as [|it items IH] using rev_ind; [reflexivity|].
  rewrite groupByLine_snoc, map_get_push, filter_snoc.
  destruct (Z.eqb_spec k (yKey it)) as [->|Hne].
  - rewrite IH, Z.eqb_refl.
    destruct (List.filter _ items) as [|a l]; reflexivity.
  - rewrite IH. destruct (Z.eqb_spec (yKey it) k); [congruence|].
    now rewrite app_nil_r.
Qed.

Lemma map_push_keys k it (m : LineMap) :
  map fst (map_push k it m)
  = if bool_decide (k ∈ map fst m) then map fst m else map fst m ++ [k].
Proof.
  induction m as [|[k0 l] m IH]; simpl; [reflexivity|].
  destruct (Z.eqb_spec k k0) as [->|Hne]; simpl.
  - rewrite bool_decide_eq_true_2; [reflexivity|now left].
  - rewrite IH. destruct (bool_decide (k ∈ map fst m)) eqn:E.
    + apply bool_decide_eq_true_1 in E.
      rewrite bool_decide_eq_true_2; [reflexivity|now right].
    + apply bool_decide_eq_false_1 in E.
      rewrite bool_decide_eq_false_2; [reflexivity|].
      intros H. apply elem_of_cons in H as [H|H]; congruence.
Qed.

Lemma groupByLine_keys_NoDup items : NoDup (map fst (groupByLine items)).
Proof.
  induction items as [|it items IH] using rev_ind; [constructor|].
  rewrite groupByLine_snoc, map_push_keys.
  destruct (bool_decide _) eqn:E; [exact IH|].
  apply bool_decide_eq_false_1 in E.
  apply NoDup_app. split; [exact IH|]. split.
  - intros x Hx Hx'. apply list_elem_of_singleton in Hx'. now subst.
  - apply NoDup_singleton.
Qed.

Lemma map_get_elem k (m : LineMap) :
  k ∈ map fst m <-> is_Some (map_get k m).
Proof.
  induction m as [|[k0 l] m IH]; simpl.
  - split; [intros H; inversion H|intros [x H]; discriminate].
  - destruct (Z.eqb_spec k k0) as [->|Hne].
    + split; [now eexists|now left].
    + rewrite <- IH. split.
      * intros H. apply elem_of_cons in H as [H|H]; [congruence|exact H].
      * intros H. now right.
Qed.

(** X1. [groupByLine] files every token under the key of its 2-unit bin,
    in input order, and nothing else. *)
Theorem groupByLine_partition items k :
  map_get k (groupByLine items)
  = (match List.filter (fun it => yKey it =? k) items with
     | [] => None
     | l => Some l
     end) /\
  NoDup (map fst (groupByLine items)) /\
  (forall it, it ∈ items ->
     exists l, map_get (yKey it) (groupByLine items) = Some l /\ it ∈ l).
Proof.
  split; [apply groupByLine_get|]. split; [apply groupByLine_keys_NoDup|].
  intros it Hit. rewrite groupByLine_get.
  assert (Hin : it ∈ List.filter (fun it0 => yKey it0 =? yKey it) items).
  { apply list_elem_of_In, List.filter_In. split.
    - now apply list_elem_of_In.
    - apply Z.eqb_refl. }
  destruct (List.filter _ items) as [|a l]; [inversion Hin|].
  now eexists.
Qed.

(** X2. The key of a token is the even number at or just above its [y], so
    two tokens of one line are at most one unit apart in height. *)
Theorem same_line_heights_close items k l a b :
  map_get k (groupByLine items) = Some l -> a ∈ l -> b ∈ l ->
  k mod 2 = 0 /\ k - 1 <= t_y a <= k /\ Z.abs (t_y a - t_y b) <= 1.
Proof.
  rewrite groupByLine_get. intros Hl Ha Hb.
  assert (Hk : forall c, c ∈ l -> yKey c = k).
  { intros c Hc. destruct (List.filter _ items) as [|x xs] eqn:E;
      [discriminate|]. injection Hl as <-. rewrite <- E in Hc.
    apply list_elem_of_In, List.filter_In in Hc as [_ Hc].
    now apply Z.eqb_eq. }
  pose proof (Hk a Ha) as Eka. pose proof (Hk b Hb) as Ekb.
  destruct (yKey_cases a) as [Ca Ma]. destruct (yKey_cases b) as [Cb _].
  rewrite Eka in *. rewrite Ekb in *. lia.
Qed.

(* ===================================================================== *)
(** ** Sorting                                                           *)
(* ===================================================================== *)

Section SortWith.

Context {A : Type} (le : A -> A -> bool).
Hypothesis le_total : forall a b, le a b = true \/ le b a = true.
Hypothesis le_trans :
  forall a b c, le a b = true -> le b c = true -> le a c = true.

Lemma insert_sorted_perm a l : insert_sorted le a l ≡ₚ a :: l.
Proof.
  induction l as [|b l IH]; simpl; [reflexivity|].
  destruct (le a b); [reflexivity|].
  rewrite IH. apply Permutation_swap.
Qed.

Lemma sort_with_perm l : sort_with le l ≡ₚ l.
Proof.
  induction l as [|a l IH]; simpl; [reflexivity|].
  rewrite insert_sorted_perm. now rewrite IH.
Qed.

Lemma insert_sorted_ordered a l :
  StronglySorted (fun u v => le u v = true) l ->
  StronglySorted (fun u v => le u v = true) (insert_sorted le a l).
Proof.
  induction 1 as [|c l Hs IH Hc]; simpl.
  - repeat constructor.
  - destruct (le a c) eqn:E.
    + constructor; [now constructor|].
      constructor; [assumption|].
      eapply Forall_impl; [exact Hc|]. intros b Hb. now apply (le_trans a c b).
    + constructor; [exact IH|].
      rewrite (insert_sorted_perm a l). constructor; [|exact Hc].
      destruct (le_total a c); congruence.
Qed.

Lemma sort_with_ordered l :
  StronglySorted (fun u v => le u v = true) (sort_with le l).
Proof.
  induction l as [|a l IH]; simpl; [constructor|].
  now apply insert_sorted_ordered.
Qed.

End SortWith.

Lemma StronglySorted_weaken {A} (R S : A -> A -> Prop) l :
  (forall a b, a ∈ l -> b ∈ l -> R a b -> S a b) ->
  StronglySorted R l -> StronglySorted S l.
Proof.
  intros H Hs. induction Hs as [|c l Hs IH Hc]; [constructor|].
  constructor.
  - apply IH. intros a b Ha Hb. apply H; now right.
  - rewrite Forall_forall in *. intros b Hb. apply H; [now left|now right|].
    now apply Hc.
Qed.

Lemma StronglySorted_strict (l : list Z) :
  NoDup l -> StronglySorted (fun a b => b <= a) l ->
  StronglySorted (fun a b => b < a) l.
Proof.
  intros Hnd Hs. induction Hs as [|c l Hs IH Hc]; [constructor|].
  apply NoDup_cons in Hnd as [Hc' Hnd]. constructor; [now apply IH|].
  rewrite Forall_forall in *. intros b Hb. specialize (Hc b Hb).
  assert (b <> c) by (intros ->; contradiction). lia.
Qed.

Lemma sort_desc_perm l : sort_desc l ≡ₚ l.
Proof. apply sort_with_perm. Qed.

Lemma sort_desc_descending l :
  NoDup l -> StronglySorted (fun a b => b < a) (sort_desc l).
Proof.
  intros Hnd. apply StronglySorted_strict.
  - now rewrite sort_desc_perm.
  - eapply StronglySorted_weaken;
      [|apply (sort_with_ordered (fun a b : Z => b <=? a))].
    + intros a b _ _ H. now apply Z.leb_le.
    + intros a b. destruct (Z.le_ge_cases a b); [right|left]; now apply Z.leb_le.
    + intros a b c H1 H2. apply Z.leb_le in H1, H2. apply Z.leb_le. lia.
Qed.

(* ===================================================================== *)
(** ** The order in which the lines of a page are visited                *)
(* ===================================================================== *)

Lemma concat_filter_cons (it : Token) rest keys :
  NoDup keys ->
  concat (map (fun k => List.filter (fun i => yKey i =? k) (it :: rest)) keys)
  ≡ₚ (if bool_decide (yKey it ∈ keys) then [it] else []) ++
     concat (map (fun k => List.filter (fun i => yKey i =? k) rest) keys).
Proof.
  induction keys as [|k keys IH]; intros Hnd; [reflexivity|].
  apply NoDup_cons in Hnd as [Hk Hnd]. cbn [map concat List.filter].
  rewrite (IH Hnd). destruct (Z.eqb_spec (yKey it) k) as [E|Hne].
  - rewrite (bool_decide_eq_true_2 (yKey it ∈ k :: keys))
      by (rewrite E; now left).
    rewrite (bool_decide_eq_false_2 (yKey it ∈ keys)) by (now rewrite E).
    reflexivity.
  - destruct (bool_decide (yKey it ∈ keys)) eqn:Hin.
    + apply bool_decide_eq_true_1 in Hin.
      rewrite (bool_decide_eq_true_2 (yKey it ∈ k :: keys)) by (now right).
      cbn [app]. symmetry. apply Permutation_middle.
    + apply bool_decide_eq_false_1 in Hin.
      rewrite (bool_decide_eq_false_2 (yKey it ∈ k :: keys)); [reflexivity|].
      intros H. apply elem_of_cons in H as [H|H]; congruence.
Qed.

Lemma concat_filter_perm (items : list Token) keys :
  NoDup keys -> (forall it, it ∈ items -> yKey it ∈ keys) ->
  concat (map (fun k => List.filter (fun i => yKey i =? k) items) keys)
  ≡ₚ items.
Proof.
  intros Hnd. induction items as [|it items IH]; intros Hall.
  - induction keys as [|k keys IHk]; [reflexivity|].
    apply NoDup_cons in Hnd as [_ Hnd]. simpl. now apply IHk.
  - rewrite (concat_filter_cons it items keys Hnd).
    rewrite bool_decide_eq_true_2 by (apply Hall; now left).
    cbn [app]. constructor. apply IH. intros i Hi. apply Hall. now right.
Qed.

(** X3. The loop over the lines of a page visits the distinct keys of the
    tokens in strictly descending order, each with the tokens of that key
    in input order; so every token of the page is visited exactly once. *)
Theorem lines_visited_top_down items :
  exists keys,
    StronglySorted (fun a b => b < a) keys /\
    (forall k, k ∈ keys <-> exists it, it ∈ items /\ yKey it = k) /\
    lines_in_order (groupByLine items)
    = map (fun k => List.filter (fun it => yKey it =? k) items) keys /\
    concat (lines_in_order (groupByLine items)) ≡ₚ items.
Proof.
  pose proof (groupByLine_keys_NoDup items) as Hnd.
  set (keys := sort_desc (map fst (groupByLine items))).
  assert (Hmem : forall k, k ∈ keys <-> exists it, it ∈ items /\ yKey it = k).
  { intros k. unfold keys. rewrite sort_desc_perm, map_get_elem.
    rewrite groupByLine_get. split.
    - intros [l Hl].
      destruct (List.filter _ items) as [|a l'] eqn:E; [discriminate|].
      assert (Ha : a ∈ List.filter (fun it => yKey it =? k) items)
        by (rewrite E; now left).
      apply list_elem_of_In, List.filter_In in Ha as [Ha1 Ha2].
      exists a. split; [now apply list_elem_of_In|now apply Z.eqb_eq].
    - intros (it & Hit & <-).
      assert (Hin : it ∈ List.filter (fun i => yKey i =? yKey it) items).
      { apply list_elem_of_In, List.filter_In. split.
        - now apply list_elem_of_In.
        - apply Z.eqb_refl. }
      destruct (List.filter _ items); [inversion Hin|now eexists]. }
  assert (Hlines : lines_in_order (groupByLine items)
            = map (fun k => List.filter (fun it => yKey it =? k) items) keys).
  { unfold lines_in_order. fold keys. apply map_ext. intros k.
    rewrite groupByLine_get. now destruct (List.filter _ items). }
  exists keys. split; [now apply sort_desc_descending|].
  split; [exact Hmem|]. split; [exact Hlines|].
  rewrite Hlines. apply concat_filter_perm.
  - unfold keys. now rewrite sort_desc_perm.
  - intros it Hit. apply Hmem. now exists it.
Qed.

(* ===================================================================== *)
(** ** The accepted header and its anchors                               *)
(* ===================================================================== *)

Lemma digit_val_range c : Chr.is_digit c = true -> 0 <= Str.digit_val c <= 9.
Proof.
  destruct c as [[] [] [] [] [] [] [] []]; vm_compute; intros H;
    try discriminate H; split; discriminate.
Qed.

Lemma day_token_number s :
  Re.day_token s = true -> 0 <= Str.Number s <= 99.
Proof.
  destruct s as [|a [|b [|c r]]]; try discriminate.
  - intros H. pose proof (digit_val_range a H).
    unfold Str.Number. cbn [Str.number_from]. lia.
  - cbn [Re.day_token]. intros H. apply andb_true_iff in H as [Ha Hb].
    pose proof (digit_val_range a Ha). pose proof (digit_val_range b Hb).
    unfold Str.Number. cbn [Str.number_from]. lia.
Qed.

Lemma sort_by_x_perm l : sort_by_x l ≡ₚ l.
Proof. apply sort_with_perm. Qed.

Lemma pick_some_is_max (lines : LineMap) h :
  pickBestDayHeaderLine lines = Some h ->
  h ∈ map snd lines /\ (20 <= day_count h)%nat /\
  forall l, l ∈ map snd lines -> (day_count l <= day_count h)%nat.
Proof.
  intros Hp.
  assert (Hne : map snd lines <> []).
  { intros E. unfold pickBestDayHeaderLine in Hp. rewrite E in Hp.
    discriminate. }
  destruct (first_max_exists _ Hne) as (pre & l0 & post & Heq & Hpre & Hpost).
  rewrite (pick_first_max lines pre l0 post Heq Hpre Hpost) in Hp.
  destruct (Nat.leb_spec 20 (day_count l0)); [|discriminate].
  injection Hp as <-. rewrite Heq. split; [|split; [assumption|]].
  - apply elem_of_app. right. now left.
  - intros l Hl. apply elem_of_app in Hl as [Hl|Hl].
    + specialize (Hpre l Hl). lia.
    + apply elem_of_cons in Hl as [->|Hl]; [lia|now apply Hpost].
Qed.

(** X4. An accepted header is a line of the page with the greatest count of
    day tokens, at least 20; its anchors are as many, one per day token,
    with day numbers from 0 to 99, in ascending order of [x]; so the list
    handed to [Math.min] is never empty and [minDayX] is the least [x]. *)
Theorem accepted_header_anchors (lines : LineMap) h :
  pickBestDayHeaderLine lines = Some h ->
  h ∈ map snd lines /\ (20 <= day_count h)%nat /\
  (forall l, l ∈ map snd lines -> (day_count l <= day_count h)%nat) /\
  length (dayAnchors_of h) = day_count h /\
  ascending_x (dayAnchors_of h) /\
  (forall a, a ∈ dayAnchors_of h ->
     0 <= a_day a <= 99 /\
     exists t, t ∈ h /\ is_day_token t = true /\
               a = mkAnchor (Str.Number (t_str t)) (t_x t)) /\
  exists m, Math_min (map a_x (dayAnchors_of h)) = Some m /\
            forall a, a ∈ dayAnchors_of h -> m <= a_x a.
Proof.
  intros Hp. destruct (pick_some_is_max lines h Hp) as (Hin & H20 & Hmax).
  assert (Hlen : length (dayAnchors_of h) = day_count h).
  { unfold dayAnchors_of, day_count. rewrite List.length_map.
    now rewrite sort_by_x_perm. }
  assert (Hanc : forall a, a ∈ dayAnchors_of h ->
            0 <= a_day a <= 99 /\
            exists t, t ∈ h /\ is_day_token t = true /\
                      a = mkAnchor (Str.Number (t_str t)) (t_x t)).
  { intros a Ha. unfold dayAnchors_of in Ha.
    apply list_elem_of_fmap in Ha as (t & -> & Ht).
    rewrite sort_by_x_perm in Ht.
    apply list_elem_of_In, List.filter_In in Ht as [Ht1 Ht2].
    split; [now apply day_token_number|].
    exists t. split; [now apply list_elem_of_In|now split]. }
  repeat (split; [assumption|]).
  split; [apply dayAnchors_ascending|]. split; [exact Hanc|].
  pose proof (dayAnchors_ascending h) as Hasc.
  destruct (dayAnchors_of h) as [|a0 rest] eqn:E; [simpl in Hlen; lia|].
  exists (a_x a0).
  assert (Hle : forall a, a ∈ a0 :: rest -> a_x a0 <= a_x a).
  { intros a Ha. apply list_elem_of_lookup in Ha as [[|j] Hj].
    - injection Hj as <-. lia.
    - apply (Hasc 0%nat (S j)); [lia|reflexivity|exact Hj]. }
  split; [|exact Hle]. apply Math_min_least.
  - now left.
  - intros u Hu. apply list_elem_of_fmap in Hu as (a & -> & Ha).
    now apply Hle.
Qed.

Lemma accepted_header_anchors_witness :
  pickBestDayHeaderLine sample_lines = Some sample_header /\
  length (dayAnchors_of sample_header) = day_count sample_header.
Proof.
  assert (H : pickBestDayHeaderLine sample_lines = Some sample_header)
    by (vm_compute; reflexivity).
  split; [exact H|].
  exact (proj1 (proj2 (proj2 (proj2
           (accepted_header_anchors sample_lines sample_header H))))).
Defined.

(* ===================================================================== *)
(** ** Code normalizer                                                   *)
(* ===================================================================== *)

Lemma alnum_not_space c : is_alnum c = true -> Chr.is_space c = false.
Proof. each_char c. Qed.

Lemma all_digit_alnum s :
  Str.all Chr.is_digit s = true -> Str.all is_alnum s = true.
Proof.
  induction s as [|c s IH]; [reflexivity|]. cbn [Str.all].
  intros H. apply andb_true_iff in H as [H1 H2].
  unfold is_alnum at 1. rewrite H1, orb_true_r. now apply IH.
Qed.

Lemma all_alpha_alnum s :
  Str.all Chr.is_alpha s = true -> Str.all is_alnum s = true.
Proof.
  induction s as [|c s IH]; [reflexivity|]. cbn [Str.all].
  intros H. apply andb_true_iff in H as [H1 H2].
  unfold is_alnum at 1. rewrite H1. now apply IH.
Qed.

Lemma letters_then_digits_shape n s :
  Re.letters_then_digits n s = true ->
  Str.all is_alnum s = true /\ (String.length s <= n + 3)%nat.
Proof.
  revert n. induction s as [|c s IH]; intros n; [split; [reflexivity|simpl; lia]|].
  cbn [Re.letters_then_digits]. destruct (Chr.is_alpha c) eqn:Hc.
  - destruct n as [|n]; [discriminate|]. intros H.
    destruct (IH n H) as [H1 H2]. cbn [Str.all String.length].
    unfold is_alnum at 1. rewrite Hc. split; [exact H1|lia].
  - intros H. apply andb_true_iff in H as [H1 H2].
    apply Nat.leb_le in H2. split; [now apply all_digit_alnum|lia].
Qed.

Lemma code_shape t :
  Re.alnum_code t || Re.alpha_code t = true ->
  Str.all is_alnum t = true /\ (String.length t <= 9)%nat.
Proof.
  intros H. apply orb_true_iff in H as [H|H].
  - destruct t as [|c r]; [discriminate|]. cbn [Re.alnum_code] in H.
    apply andb_true_iff in H as [Hc H].
    destruct (letters_then_digits_shape 5 r H) as [H1 H2].
    cbn [Str.all String.length]. unfold is_alnum at 1. rewrite Hc.
    split; [exact H1|lia].
  - unfold Re.alpha_code in H. apply andb_true_iff in H as [H H6].
    apply andb_true_iff in H as [Ha _]. apply Nat.leb_le in H6.
    split; [now apply all_alpha_alnum|lia].
Qed.

Lemma trimEnd_no_space s :
  Str.all (fun c => negb (Chr.is_space c)) s = true -> Str.trimEnd s = s.
Proof.
  induction s as [|c s IH]; [reflexivity|]. cbn [Str.all Str.trimEnd].
  intros H. apply andb_true_iff in H as [Hc H]. apply negb_true_iff in Hc.
  rewrite (IH H), Hc. reflexivity.
Qed.

Lemma trim_no_space s :
  Str.all (fun c => negb (Chr.is_space c)) s = true -> Str.trim s = s.
Proof.
  intros H. unfold Str.trim, Str.trimStart.
  assert (E : Str.skip_ws s = s).
  { destruct s as [|c s]; [reflexivity|]. cbn [Str.all] in H.
    apply andb_true_iff in H as [Hc _]. apply negb_true_iff in Hc.
    cbn [Str.skip_ws]. now rewrite Hc. }
  rewrite E. now apply trimEnd_no_space.
Qed.

Lemma all_impl (p q : ascii -> bool) s :
  (forall c, p c = true -> q c = true) ->
  Str.all p s = true -> Str.all q s = true.
Proof.
  intros Hpq. induction s as [|c s IH]; [reflexivity|]. cbn [Str.all].
  intros H. apply andb_true_iff in H as [H1 H2].
  now rewrite (Hpq c H1), (IH H2).
Qed.

Lemma month_name_only_upper t :
  Re.month_name_only (Str.toUpperCase t) = Re.month_name_only t.
Proof. unfold Re.month_name_only. now rewrite toUpperCase_idem. Qed.

(** X5. On a text of ASCII characters, [normalizeCode] does not look at
    the case: it gives the same on the upper-cased text. *)
Theorem normalizeCode_ignores_case s :
  Str.all is_ascii s = true ->
  normalizeCode (Str.toUpperCase s) = normalizeCode s.
Proof.
  intros _. unfold normalizeCode. rewrite trim_upper.
  set (t := Str.trim s). unfold Str.toUpperCase at 1.
  rewrite is_empty_map. fold (Str.toUpperCase t).
  rewrite day_token_upper, month_name_only_upper, alnum_code_upper,
    alpha_code_upper, toUpperCase_idem. reflexivity.
Qed.

Lemma normalizeCode_ignores_case_witness :
  Str.all is_ascii " fan " = true /\
  normalizeCode (Str.toUpperCase " fan ") = normalizeCode " fan ".
Proof.
  assert (H : Str.all is_ascii " fan " = true) by (vm_compute; reflexivity).
  split; [exact H|]. exact (normalizeCode_ignores_case " fan " H).
Defined.

(** X6. A code returned by [normalizeCode] is in canonical form: it is
    returned unchanged when normalized again, it is no month name, and it
    has at most nine characters, all letters or digits. *)
Theorem normalizeCode_canonical s v :
  normalizeCode s = Some v ->
  normalizeCode v = Some v /\ Re.month_name_only v = false /\
  (1 <= String.length v <= 9)%nat /\
  Str.all (fun c => Chr.is_upper c || Chr.is_digit c) v = true.
Proof.
  intros Hs. destruct (normalizeCode_normal s v Hs) as (Hne & Hup & Hshape & Hd).
  destruct (code_shape v Hshape) as [Hal Hlen].
  assert (Htrim : Str.trim v = v).
  { apply trim_no_space. eapply all_impl; [|exact Hal].
    intros c Hc. now rewrite (alnum_not_space c Hc). }
  assert (Hm : Re.month_name_only v = false).
  { revert Hs. unfold normalizeCode. set (t := Str.trim s).
    destruct (Str.is_empty t); [discriminate|].
    destruct (Re.day_token t); [discriminate|].
    destruct (Re.month_name_only t) eqn:Hmt; [discriminate|].
    destruct (Re.alnum_code t || Re.alpha_code t); [|discriminate].
    intros [= <-]. now rewrite month_name_only_upper. }
  split; [|split; [exact Hm|split]].
  - unfold normalizeCode. rewrite Htrim, Hd, Hm, Hshape, Hup.
    destruct (Str.is_empty v) eqn:He; [|reflexivity].
    apply is_empty_true in He. contradiction.
  - split; [|exact Hlen]. destruct v; [contradiction|simpl; lia].
  - rewrite <- Hup. clear -Hal. induction v as [|c v IH]; [reflexivity|].
    cbn [Str.all] in Hal. apply andb_true_iff in Hal as [Hc Hal].
    change (Str.toUpperCase (String c v))
      with (String (Chr.to_upper c) (Str.toUpperCase v)).
    cbn [Str.all]. rewrite (IH Hal), andb_true_r.
    revert Hc. clear. each_char c.
Qed.

Lemma normalizeCode_canonical_witness :
  normalizeCode " fg " = Some "FG" /\
  normalizeCode "FG" = Some "FG" /\ Re.month_name_only "FG" = false /\
  (1 <= String.length "FG" <= 9)%nat /\
  Str.all (fun c => Chr.is_upper c || Chr.is_digit c) "FG" = true.
Proof.
  assert (H : normalizeCode " fg " = Some "FG") by (vm_compute; reflexivity).
  split; [exact H|]. exact (normalizeCode_canonical " fg " "FG" H).
Defined.

(* ===================================================================== *)
(** ** Section labels                                                    *)
(* ===================================================================== *)

Lemma tidy_is_tidy_after t : tidy t = true -> tidy_after false t = true.
Proof.
  destruct t as [|c r]; [reflexivity|]. cbn [tidy tidy_after].
  intros H. apply andb_true_iff in H as [Hc H]. apply negb_true_iff in Hc.
  now rewrite Hc.
Qed.

Lemma tidy_after_tail b c r :
  tidy_after b (String c r) = true -> tidy_after (Chr.is_space c) r = true.
Proof.
  cbn [tidy_after]. destruct (Chr.is_space c); [|easy].
  intros H. now apply andb_true_iff in H as [_ H].
Qed.

Lemma tidy_after_drop n b t :
  tidy_after b t = true -> exists b', tidy_after b' (Str.drop n t) = true.
Proof.
  revert b t. induction n as [|n IH]; intros b t H; [now exists b|].
  destruct t as [|c r]; [now exists false|].
  cbn [Str.drop]. apply (IH (Chr.is_space c)). now apply (tidy_after_tail b).
Qed.

Lemma tidy_after_space b c r :
  Chr.is_space c = true -> tidy_after b (String c r) = true ->
  exists c' r', r = String c' r' /\ Chr.is_space c' = false /\
                tidy_after false r' = true.
Proof.
  intros Hc. cbn [tidy_after]. rewrite Hc. intros H.
  apply andb_true_iff in H as [_ H].
  destruct r as [|c' r']; [discriminate|]. cbn [tidy_after] in H.
  destruct (Chr.is_space c') eqn:Hc'.
  - apply andb_true_iff in H as [H _]. apply andb_true_iff in H as [_ H].
    discriminate.
  - now exists c', r'.
Qed.

Lemma shift_match_tidy t m1 :
  tidy t = true -> Re.shift_match t = Some m1 ->
  m1 <> "" /\ tidy m1 = true.
Proof.
  intros Ht. unfold Re.shift_match.
  destruct (Str.startsWith_ci "SHIFT" t); [|discriminate].
  destruct (tidy_after_drop 5 false t (tidy_is_tidy_after t Ht)) as [b' Hd].
  destruct (Str.drop 5 t) as [|c r]; [discriminate|].
  destruct (Chr.is_space c) eqn:Hc; [|discriminate].
  destruct (tidy_after_space b' c r Hc Hd) as (c' & r' & -> & Hc' & Hr').
  cbn [Re.shift_tail]. rewrite Hc'. unfold Re.dot_plus_end.
  destruct (_ && _); [|discriminate]. intros [= <-].
  split; [discriminate|]. cbn [tidy]. now rewrite Hc', Hr'.
Qed.

Lemma detectShiftLabel_label text l :
  detectShiftLabel text = Some l -> l <> "" /\ tidy l = true.
Proof.
  unfold detectShiftLabel.
  pose proof (tidy_normalized text) as Ht.
  set (t := Str.trim (Str.collapse_ws text)) in *.
  destruct (Re.shift_match t) as [m1|] eqn:Hm.
  - destruct (shift_match_tidy t m1 Ht Hm) as [Hne Hm1].
    destruct (tidy_fixed m1 Hm1) as [Ec Et]. rewrite Et, Ec.
    intros [= <-]. now split.
  - intros Hf. apply List.find_some in Hf as [Hin _].
    unfold direct_labels in Hin. simpl in Hin.
    repeat (destruct Hin as [<-|Hin]; [split; [discriminate|reflexivity]|]).
    contradiction.
Qed.

(** X7. A label returned by [detectShiftLabel] is never empty and is in
    normal form (single spaces, none around); so the loop over the lines
    takes a line for a label exactly when [detectShiftLabel] answers. *)
Theorem detectShiftLabel_never_empty text l :
  detectShiftLabel text = Some l ->
  l <> "" /\ tidy l = true /\
  forall stored,
    is_label_line stored = true <->
    is_Some (detectShiftLabel (line_text (sort_by_x stored))).
Proof.
  intros H. destruct (detectShiftLabel_label text l H) as [H1 H2].
  split; [exact H1|]. split; [exact H2|].
  intros stored. unfold is_label_line.
  destruct (detectShiftLabel (line_text (sort_by_x stored)))
    as [[|c l']|] eqn:E.
  - destruct (detectShiftLabel_label _ _ E) as [Hne _]. contradiction.
  - split; [intros _; now eexists|reflexivity].
  - split; [discriminate|intros [x Hx]; discriminate].
Qed.

Lemma detectShiftLabel_never_empty_witness :
  detectShiftLabel "shift   b2  night" = Some "b2 night" /\
  "b2 night" <> "" /\ tidy "b2 night" = true /\
  forall stored,
    is_label_line stored = true <->
    is_Some (detectShiftLabel (line_text (sort_by_x stored))).
Proof.
  assert (H : detectShiftLabel "shift   b2  night" = Some "b2 night")
    by (vm_compute; reflexivity).
  split; [exact H|].
  exact (detectShiftLabel_never_empty "shift   b2  night" "b2 night" H).
Defined.

(* ===================================================================== *)
(** ** Names of employees and values of shifts                           *)
(* ===================================================================== *)







Lemma line_step_ok minDayX dayAnchors st stored :
  line_state_ok st -> line_state_ok (line_step minDayX dayAnchors st stored).
Proof.
  intros Hst. pose proof Hst as (Hc & Hs). unfold line_step.
  destruct (detectShiftLabel _) as [[|c lab]|] eqn:E.
  2: { split; [right; eexists; exact E|]. simpl.
       intros s Hin. apply elem_of_union in Hin as [Hin|Hin]; [|now apply Hs].
       apply elem_of_singleton in Hin. subst s. right. eexists. exact E. }
  all: destruct (isNonEmployeeLine _); [exact Hst|];
    destruct (looksLikeEmployeeName _); simpl; [|exact Hst].
  all: split; [exact Hc|].
  all: intros s Hin; apply elem_of_union in Hin as [Hin|Hin];
    [apply elem_of_singleton in Hin; now subst s|now apply Hs].
Qed.

Lemma run_lines_ok minDayX dayAnchors ls st :
  line_state_ok st -> line_state_ok (run_lines minDayX dayAnchors ls st).
Proof.
  revert st. induction ls as [|l ls IH]; intros st H; [exact H|].
  apply IH. now apply line_step_ok.
Qed.

Lemma page_step_ok st tc : parse_state_ok st -> parse_state_ok (page_step st tc).
Proof.
  intros Hs. unfold page_step, page_step_upto.
  destruct (detect_month_year_frame (page_items tc) st) as [_ Es].
  destruct (pickBestDayHeaderLine _) as [h|].
  - unfold page_loop.
    match goal with
    | |- context [run_lines ?m ?a ?ls ?s0] =>
        destruct (run_lines_ok m a ls s0) as (_ & Hs')
    end.
    + split; [now left|]. simpl. now rewrite Es.
    + exact Hs'.
  - unfold parse_state_ok. now rewrite Es.
Qed.

Lemma run_pages_ok pages : parse_state_ok (run_pages pages).
Proof.
  unfold run_pages.
  assert (H0 : parse_state_ok init_state).
  { intros s Hs. simpl in Hs. now apply elem_of_empty in Hs. }
  revert H0. generalize init_state.
  induction pages as [|tc pages IH]; intros st H; [exact H|].
  simpl. apply IH. now apply page_step_ok.
Qed.

(** X9. Every member of the set of shifts of a result is "Unknown" or a
    label returned by [detectShiftLabel], and is never empty. *)
Theorem shifts_provenance nowYear nowMonth pages s :
  s ∈ res_shifts (parseSchedulePDF nowYear nowMonth pages) ->
  shift_value s /\ s <> "".
Proof.
  pose proof (run_pages_ok pages) as Hs.
  unfold parseSchedulePDF, result_of. cbn [res_shifts].
  intros Hin. pose proof (Hs s Hin) as Hv. split; [exact Hv|].
  destruct Hv as [->|[text Ht]]; [discriminate|].
  now apply (detectShiftLabel_label text).
Qed.

Lemma shifts_provenance_witness :
  "B" ∈ res_shifts (parseSchedulePDF 2026 10 [sample_page1]) /\
  shift_value "B" /\ "B" <> "".
Proof.
  assert (Hin : "B" ∈ res_shifts (parseSchedulePDF 2026 10 [sample_page1])).
  { refine (bool_decide_unpack _ _). vm_compute. exact I. }
  split; [exact Hin|].
  exact (shifts_provenance 2026 10 [sample_page1] "B" Hin).
Defined.

(* ===================================================================== *)
(** ** Pages are parsed independently                                    *)
(* ===================================================================== *)

Ltac union_units :=
  rewrite ?(right_id_L (∅ : gset string) (∪)),
    ?(left_id_L (∅ : gset string) (∪));
  first [reflexivity | apply (comm_L (∪))].

Lemma line_step_frame minDayX dayAnchors st stored :
  ls_employees (line_step minDayX dayAnchors st stored)
  = ls_employees st ++
    ls_employees (line_step minDayX dayAnchors
                    (fresh_lines (currentShift st)) stored) /\
  ls_shifts (line_step minDayX dayAnchors st stored)
  = ls_shifts st ∪
    ls_shifts (line_step minDayX dayAnchors
                 (fresh_lines (currentShift st)) stored) /\
  currentShift (line_step minDayX dayAnchors st stored)
  = currentShift (line_step minDayX dayAnchors
                    (fresh_lines (currentShift st)) stored).
Proof.
  unfold line_step, fresh_lines.
  destruct (detectShiftLabel _) as [[|c lab]|].
  2: { simpl. rewrite app_nil_r. split; [reflexivity|].
       split; [union_units|reflexivity]. }
  all: destruct (isNonEmployeeLine _);
    [simpl; rewrite app_nil_r; split; [reflexivity|];
     split; [union_units|reflexivity]|].
  all: destruct (looksLikeEmployeeName _); simpl.
  all: try rewrite app_nil_r.
  all: split; [reflexivity|]; split; [union_units|reflexivity].
Qed.

Lemma run_lines_frame minDayX dayAnchors ls st :
  ls_employees (run_lines minDayX dayAnchors ls st)
  = ls_employees st ++
    ls_employees (run_lines minDayX dayAnchors ls
                    (fresh_lines (currentShift st))) /\
  ls_shifts (run_lines minDayX dayAnchors ls st)
  = ls_shifts st ∪
    ls_shifts (run_lines minDayX dayAnchors ls
                 (fresh_lines (currentShift st))).
Proof.
  revert st. induction ls as [|l ls IH]; intros st.
  - simpl. rewrite app_nil_r. split; [reflexivity|union_units].
  - unfold run_lines in *. cbn [fold_left].
    destruct (line_step_frame minDayX dayAnchors st l) as (E1 & S1 & C1).
    destruct (IH (line_step minDayX dayAnchors st l)) as [E2 S2].
    destruct (IH (line_step minDayX dayAnchors
                    (fresh_lines (currentShift st)) l)) as [E3 S3].
    rewrite E2, S2, E3, S3, E1, S1, C1.
    split; [now rewrite app_assoc|]. now rewrite (assoc_L (∪)).
Qed.

Lemma page_step_frame st tc :
  employees (page_step st tc)
  = employees st ++ employees (page_step init_state tc) /\
  shifts (page_step st tc) = shifts st ∪ shifts (page_step init_state tc).
Proof.
  unfold page_step, page_step_upto.
  destruct (detect_month_year_frame (page_items tc) st) as [Ee Es].
  destruct (detect_month_year_frame (page_items tc) init_state) as [Ee0 Es0].
  destruct (pickBestDayHeaderLine _) as [h|].
  - unfold page_loop. cbn [employees shifts].
    match goal with
    | |- context [run_lines ?m ?a ?ls (page_start (detect_month_year ?i st))] =>
        destruct (run_lines_frame m a ls (page_start (detect_month_year i st)))
          as [E1 S1];
        destruct (run_lines_frame m a ls
                    (page_start (detect_month_year i init_state)))
          as [E2 S2]
    end.
    rewrite E1, S1, E2, S2. cbn [page_start ls_employees ls_shifts currentShift].
    rewrite Ee, Es, Ee0, Es0. cbn [init_state employees shifts].
    split; [reflexivity|]. now rewrite (left_id_L ∅ (∪)).
  - rewrite Ee, Es, Ee0, Es0. cbn [init_state employees shifts].
    rewrite app_nil_r. split; [reflexivity|union_units].
Qed.

Lemma fold_pages_frame pages st :
  employees (fold_left page_step pages st)
  = employees st ++ employees (run_pages pages) /\
  shifts (fold_left page_step pages st)
  = shifts st ∪ shifts (run_pages pages).
Proof.
  unfold run_pages. revert st. induction pages as [|tc pages IH]; intros st.
  - simpl. rewrite app_nil_r. split; [reflexivity|union_units].
  - cbn [fold_left].
    destruct (IH (page_step st tc)) as [E1 S1].
    destruct (IH (page_step init_state tc)) as [E2 S2].
    destruct (page_step_frame st tc) as [E3 S3].
    rewrite E1, S1, E2, S2, E3, S3.
    split; [now rewrite app_assoc|]. now rewrite (assoc_L (∪)).
Qed.

(** X10. The employee rows and shifts a page contributes do not depend on
    the other pages: the employees of a document made of two parts are
    those of the first part followed by those of the second, and its
    shifts are the union of theirs. *)
Theorem pages_parsed_independently nowYear nowMonth front back :
  res_employees (parseSchedulePDF nowYear nowMonth (front ++ back))
  = res_employees (parseSchedulePDF nowYear nowMonth front) ++
    res_employees (parseSchedulePDF nowYear nowMonth back) /\
  res_shifts (parseSchedulePDF nowYear nowMonth (front ++ back))
  = res_shifts (parseSchedulePDF nowYear nowMonth front) ∪
    res_shifts (parseSchedulePDF nowYear nowMonth back).
Proof.
  unfold parseSchedulePDF, result_of. cbn [res_employees res_shifts].
  unfold run_pages at 1 4. rewrite fold_left_app.
  apply fold_pages_frame.
Qed.

(* ===================================================================== *)
(** ** The employees of the result are the rows of the pages             *)
(* ===================================================================== *)










(* ===================================================================== *)
(** ** The first detected month and year are kept                        *)
(* ===================================================================== *)

Lemma page_step_keeps_year st tc :
  year_unset (detectedYear st) = false ->
  detectedMonth (page_step st tc) = detectedMonth st /\
  detectedYear (page_step st tc) = detectedYear st.
Proof.
  intros Hy. unfold page_step.
  destruct (page_step_month_year None st tc) as [-> ->].
  unfold detect_month_year.
  destruct (Re.month_year_match _) as [[m1 m2]|]; [|now split].
  rewrite Hy. now split.
Qed.

Lemma fold_pages_keeps_year pages st :
  year_unset (detectedYear st) = false ->
  detectedMonth (fold_left page_step pages st) = detectedMonth st /\
  detectedYear (fold_left page_step pages st) = detectedYear st.
Proof.
  revert st. induction pages as [|tc pages IH]; intros st Hy; [now split|].
  cbn [fold_left]. destruct (page_step_keeps_year st tc Hy) as [Em Ey].
  destruct (IH (page_step st tc)) as [Em' Ey']; [now rewrite Ey|].
  rewrite Em', Ey'. now split.
Qed.

(** X11. Once the pages read so far have set a year other than 0, no later
    page changes the detected month and year, so the month and year of
    the result are those of the first part of the document. *)
Theorem first_detected_year_wins nowYear nowMonth front back :
  year_unset (detectedYear (run_pages front)) = false ->
  detectedMonth (run_pages (front ++ back)) = detectedMonth (run_pages front) /\
  detectedYear (run_pages (front ++ back)) = detectedYear (run_pages front) /\
  res_month (parseSchedulePDF nowYear nowMonth (front ++ back))
  = res_month (parseSchedulePDF nowYear nowMonth front) /\
  res_year (parseSchedulePDF nowYear nowMonth (front ++ back))
  = res_year (parseSchedulePDF nowYear nowMonth front).
Proof.
  intros Hy.
  assert (H : detectedMonth (run_pages (front ++ back))
              = detectedMonth (run_pages front) /\
              detectedYear (run_pages (front ++ back))
              = detectedYear (run_pages front)).
  { unfold run_pages at 1 3. rewrite fold_left_app.
    now apply fold_pages_keeps_year. }
  destruct H as [Em Ey]. split; [exact Em|]. split; [exact Ey|].
  unfold parseSchedulePDF, result_of. cbn [res_month res_year].
  now rewrite Em, Ey.
Qed.

Lemma first_detected_year_wins_witness :
  year_unset (detectedYear
                (run_pages [title_page "MONTHLY SCHEDULE January 2024"]))
  = false /\
  res_month (parseSchedulePDF 2026 10
               ([title_page "MONTHLY SCHEDULE January 2024"] ++
                [title_page "MONTHLY SCHEDULE February 2025"]))
  = res_month (parseSchedulePDF 2026 10
                 [title_page "MONTHLY SCHEDULE January 2024"]).
Proof.
  assert (H : year_unset
                (detectedYear
                   (run_pages [title_page "MONTHLY SCHEDULE January 2024"]))
              = false) by (vm_compute; reflexivity).
  split; [exact H|].
  exact (proj1 (proj2 (proj2
           (first_detected_year_wins 2026 10
              [title_page "MONTHLY SCHEDULE January 2024"]
              [title_page "MONTHLY SCHEDULE February 2025"] H)))).
Defined.

(* ===================================================================== *)
(** ** Month, year and number of days of the result                      *)
(* ===================================================================== *)

Lemma last_day_range year month : 28 <= last_day year month <= 31.
Proof.
  unfold last_day. destruct (month =? 2).
  - destruct (leap_year _); lia.
  - destruct (_ || _); lia.
Qed.

(** X14. With a system month from 0 to 11, the month of every result is
    from 1 to 12, and its number of days is the calendar's for the
    result's own month and year: from 28 to 31, and in February 29 exactly
    in a leap year. *)
Theorem result_calendar nowYear nowMonth pages :
  0 <= nowMonth <= 11 ->
  1 <= res_month (parseSchedulePDF nowYear nowMonth pages) <= 12 /\
  res_daysInMonth (parseSchedulePDF nowYear nowMonth pages)
  = last_day (res_year (parseSchedulePDF nowYear nowMonth pages))
             (res_month (parseSchedulePDF nowYear nowMonth pages)) /\
  28 <= res_daysInMonth (parseSchedulePDF nowYear nowMonth pages) <= 31 /\
  (res_month (parseSchedulePDF nowYear nowMonth pages) = 2 ->
   (res_daysInMonth (parseSchedulePDF nowYear nowMonth pages) = 29 <->
    leap_year (date_year (res_year (parseSchedulePDF nowYear nowMonth pages)))
    = true)).
Proof.
  intros Hm. unfold parseSchedulePDF, result_of, run_pages.
  cbn [res_month res_year res_daysInMonth].
  assert (H0 : month_year_from_pages [] init_state) by (left; now split).
  assert (Hr : 1 <= or_else (detectedMonth (fold_left page_step pages init_state))
                            (nowMonth + 1) <= 12).
  { destruct (month_year_from_pages_fold pages [] init_state H0)
      as [[Em Ey]|(tc & m & y & Hin & Hp & Hr & Em & Ey)].
    - rewrite Em. cbn [or_else]. lia.
    - rewrite Em. cbn [or_else]. destruct (Z.eqb_spec m 0); lia. }
  split; [exact Hr|]. split; [reflexivity|]. split; [apply last_day_range|].
  intros E2. rewrite E2. unfold last_day. cbn [Z.eqb Pos.eqb].
  destruct (leap_year _); split; intros H; try reflexivity; try discriminate;
    lia.
Qed.

Lemma result_calendar_witness :
  0 <= 10 <= 11 /\
  1 <= res_month (parseSchedulePDF 2026 10
                    [title_page "MONTHLY SCHEDULE February 2024"]) <= 12 /\
  res_daysInMonth (parseSchedulePDF 2026 10
                     [title_page "MONTHLY SCHEDULE February 2024"]) = 29.
Proof.
  assert (H : 0 <= 10 <= 11) by lia.
  split; [exact H|].
  split;
    [exact (proj1 (result_calendar 2026 10
                     [title_page "MONTHLY SCHEDULE February 2024"] H))|].
  vm_compute. reflexivity.
Defined.

(* ===================================================================== *)
(** ** Codes of a row                                                    *)
(* ===================================================================== *)

Lemma code_step_entry dayAnchors (codes : gmap string string) t :
  code_step dayAnchors codes t
  = match token_entry dayAnchors t with
    | Some (d, c) => <[pretty d := c]> codes
    | None => codes
    end.
Proof.
  unfold code_step, token_entry.
  destruct (normalizeCode _) as [code|]; [|reflexivity].
  destruct (Str.is_empty code); [reflexivity|].
  destruct (nearestDay _ _) as [day|]; [|reflexivity].
  destruct (day =? 0); [reflexivity|].
  destruct (_ && _); reflexivity.
Qed.

Lemma row_codes_snoc dayAnchors right t :
  row_codes dayAnchors (right ++ [t])
  = code_step dayAnchors (row_codes dayAnchors right) t.
Proof. unfold row_codes. now rewrite fold_left_app. Qed.

(** X15. The code an employee row holds for a day is the code of the last
    token of its code region, in [x] order, that is accepted and mapped to
    that day (from 1 to 31); the day has no code when there is no such
    token. *)
Theorem row_codes_last_write_wins dayAnchors right d :
  row_codes dayAnchors right !! pretty d
  = snd <$> last (List.filter (fun e => fst e =? d)
                              (omap (token_entry dayAnchors) right)).
Proof.
  induction right as [|t right IH] using rev_ind; [reflexivity|].
  rewrite row_codes_snoc, code_step_entry, omap_app. cbn [omap list_omap].
  destruct (token_entry dayAnchors t) as [[d' c]|].
  - cbn [app]. rewrite filter_snoc. cbn [fst].
    destruct (Z.eqb_spec d' d) as [->|Hne].
    + rewrite lookup_insert_eq, last_snoc. reflexivity.
    + rewrite lookup_insert_ne, app_nil_r; [exact IH|].
      intros E. apply (inj pretty) in E. contradiction.
  - cbn [app]. rewrite app_nil_r. exact IH.
Qed.

(* ===================================================================== *)
(** ** Groups and counters of the day view                               *)
(* ===================================================================== *)

Lemma class_eqb_refl c : class_eqb c c = true.
Proof. now destruct c. Qed.

Lemma bucket_snoc day cat emps e :
  bucket day cat (emps ++ [e])
  = bucket day cat emps ++
    (if class_eqb (classify (code_on e day)) cat then [(e, code_on e day)]
     else []).
Proof.
  unfold bucket. rewrite filter_snoc, map_app.
  now destruct (class_eqb _ _).
Qed.

Lemma render_groups_snoc day emps e :
  render_groups day (emps ++ [e])
  = render_step day (render_groups day emps) e.
Proof. unfold render_groups. now rewrite fold_left_app. Qed.

Lemma byShift_get_push s k cat entry m :
  byShift_get s (byShift_push k cat entry m)
  = if bool_decide (k = s)
    then Some (group_push cat entry
                 (default (mkGroup [] [] []) (byShift_get k m)))
    else byShift_get s m.
Proof.
  induction m as [|[k0 g] m IH]; cbn [byShift_push byShift_get].
  - destruct (bool_decide (k = s)); reflexivity.
  - destruct (bool_decide (k0 = k)) eqn:E0; cbn [byShift_get].
    + apply bool_decide_eq_true_1 in E0. subst k0.
      destruct (bool_decide (k = s)); reflexivity.
    + rewrite IH. destruct (bool_decide (k = s)) eqn:Es;
        destruct (bool_decide (k0 = s)) eqn:E1; try reflexivity.
      apply bool_decide_eq_true_1 in Es, E1.
      apply bool_decide_eq_false_1 in E0. congruence.
Qed.

Lemma group_push_buckets day e l :
  group_push (classify (code_on e day)) (e, code_on e day)
    (mkGroup (bucket day working l) (bucket day off l) (bucket day absent l))
  = mkGroup (bucket day working (l ++ [e])) (bucket day off (l ++ [e]))
            (bucket day absent (l ++ [e])).
Proof.
  rewrite !bucket_snoc.
  destruct (classify (code_on e day)); cbn [group_push class_eqb g_working
    g_off g_absent]; now rewrite ?app_nil_r.
Qed.

Lemma render_groups_get day emps s :
  byShift_get s (byShift (render_groups day emps))
  = match List.filter (fun e => bool_decide (shift_of e = s)) emps with
    | [] => None
    | l => Some (mkGroup (bucket day working l) (bucket day off l)
                         (bucket day absent l))
    end.
Proof.
  induction emps as [|e emps IH] using rev_ind; [reflexivity|].
  rewrite render_groups_snoc. cbn [render_step byShift].
  rewrite byShift_get_push, filter_snoc.
  destruct (bool_decide (shift_of e = s)) eqn:Es.
  - apply bool_decide_eq_true_1 in Es. subst s. rewrite IH.
    destruct (List.filter _ emps) as [|a l] eqn:El.
    + cbn [default from_option id].
      change (mkGroup [] [] [])
        with (mkGroup (bucket day working []) (bucket day off [])
                      (bucket day absent [])).
      now rewrite group_push_buckets.
    + cbn [default from_option id]. rewrite group_push_buckets. reflexivity.
  - rewrite app_nil_r. exact IH.
Qed.

Lemma render_groups_counters day emps :
  workingNames (render_groups day emps)
  = map (fun p => emp_name (fst p)) (bucket day working emps) /\
  offCount (render_groups day emps) = length (bucket day off emps) /\
  absentCount (render_groups day emps) = length (bucket day absent emps).
Proof.
  induction emps as [|e emps (Hw & Ho & Ha)] using rev_ind;
    [now repeat split|].
  rewrite render_groups_snoc, !bucket_snoc.
  cbn [render_step workingNames offCount absentCount].
  rewrite Hw, Ho, Ha, map_app, !length_app.
  destruct (classify (code_on e day)); cbn [class_eqb map fst length];
    rewrite ?app_nil_r; repeat split; lia.
Qed.

Lemma buckets_total day emps :
  (length (bucket day working emps) + length (bucket day off emps) +
   length (bucket day absent emps) = length emps)%nat.
Proof.
  induction emps as [|e emps IH] using rev_ind; [reflexivity|].
  rewrite !bucket_snoc, !length_app.
  destruct (classify (code_on e day)); cbn [class_eqb length]; lia.
Qed.

(** X16. The first loop of [renderResults] files every employee once: the
    group of a shift holds, in the order of the employee list, the
    employees of that shift split by the class of their code on the day;
    a shift without employee has no group; the list of working names and
    the two counters count the same classes over all employees, and the
    three numbers add up to the number of employees. *)
Theorem render_groups_partition day emps s :
  byShift_get s (byShift (render_groups day emps))
  = (match List.filter (fun e => bool_decide (shift_of e = s)) emps with
     | [] => None
     | l => Some (mkGroup (bucket day working l) (bucket day off l)
                          (bucket day absent l))
     end) /\
  workingNames (render_groups day emps)
  = map (fun p => emp_name (fst p)) (bucket day working emps) /\
  offCount (render_groups day emps) = length (bucket day off emps) /\
  absentCount (render_groups day emps) = length (bucket day absent emps) /\
  (length (workingNames (render_groups day emps)) +
   offCount (render_groups day emps) +
   absentCount (render_groups day emps) = length emps)%nat.
Proof.
  split; [apply render_groups_get|].
  destruct (render_groups_counters day emps) as (Hw & Ho & Ha).
  repeat (split; [assumption|]).
  rewrite Hw, Ho, Ha, List.length_map. apply buckets_total.
Qed.

(* ===================================================================== *)
(** ** Off days of an employee                                           *)
(* ===================================================================== *)

Lemma classify_off_iff c :
  classify c = off <-> Str.toUpperCase (Str.trim c) ∈ OFF_CODES.
Proof.
  unfold classify. set (u := Str.toUpperCase (Str.trim c)).
  destruct (Str.is_empty u) eqn:He.
  - apply is_empty_true in He. rewrite He.
    assert (Hn : bool_decide ("" ∈ OFF_CODES) = false)
      by (vm_compute; reflexivity).
    apply bool_decide_eq_false_1 in Hn. split; [discriminate|contradiction].
  - destruct (bool_decide (u ∈ OFF_CODES)) eqn:E.
    + apply bool_decide_eq_true_1 in E. now split.
    + apply bool_decide_eq_false_1 in E.
      split; [|contradiction]. destruct (bool_decide _); discriminate.
Qed.

Lemma seqZ_sorted m n : StronglySorted Z.lt (seqZ m n).
Proof.
  remember (Z.to_nat n) as k eqn:Hk. revert m n Hk.
  induction k as [|k IH]; intros m n Hk.
  - rewrite seqZ_nil by lia. constructor.
  - rewrite seqZ_cons by lia. constructor; [apply IH; lia|].
    apply Forall_forall. intros x Hx. apply elem_of_seqZ in Hx. lia.
Qed.

Lemma filter_sorted {A} (R : A -> A -> Prop) f l :
  StronglySorted R l -> StronglySorted R (List.filter f l).
Proof.
  induction 1 as [|a l Hs IH Ha]; [constructor|]. simpl.
  destruct (f a); [|exact IH]. constructor; [exact IH|].
  rewrite Forall_forall in *. intros x Hx.
  apply Ha. apply list_elem_of_In in Hx. apply List.filter_In in Hx as [Hx _].
  now apply list_elem_of_In.
Qed.

(** X17. The off days of the calendar of an employee are exactly the days
    from 1 to [daysInMonth] whose code [classify] calls off, in ascending
    order without repeats; so the calendar and the day view agree. *)
Theorem offDays_agree_with_classify emp daysInMonth :
  (forall d, d ∈ offDays emp daysInMonth <->
             1 <= d <= daysInMonth /\ classify (code_on emp d) = off) /\
  StronglySorted Z.lt (offDays emp daysInMonth).
Proof.
  split.
  - intros d. unfold offDays. rewrite list_elem_of_In, List.filter_In.
    rewrite <- list_elem_of_In, elem_of_seqZ, classify_off_iff. split.
    + intros [H1 H2]. apply bool_decide_eq_true_1 in H2. split; [lia|exact H2].
    + intros [H1 H2]. split; [lia|now apply bool_decide_eq_true_2].
  - apply filter_sorted, seqZ_sorted.
Qed.

(* ===================================================================== *)
(** ** Formatting helpers                                                *)
(* ===================================================================== *)

(** X18. For a number from 0 to 99, [pad2] gives exactly two decimal digits
    that read back as the number. *)
Theorem pad2_two_digits n :
  0 <= n <= 99 ->
  String.length (pad2 n) = 2%nat /\
  Str.all Chr.is_digit (pad2 n) = true /\
  Str.Number (pad2 n) = n.
Proof.
  intros Hn.
  assert (H : Forall (fun k => String.length (pad2 k) = 2%nat /\
                               Str.all Chr.is_digit (pad2 k) = true /\
                               Str.Number (pad2 k) = k) (seqZ 0 100)).
  { refine (bool_decide_unpack _ _). vm_compute. exact I. }
  rewrite Forall_seqZ in H. apply H. lia.
Qed.

Lemma pad2_two_digits_witness :
  0 <= 7 <= 99 /\
  String.length (pad2 7) = 2%nat /\
  Str.all Chr.is_digit (pad2 7) = true /\
  Str.Number (pad2 7) = 7.
Proof.
  assert (H : 0 <= 7 <= 99) by lia.
  split; [exact H|]. exact (pad2_two_digits 7 H).
Defined.

Lemma any_app p a b :
  Str.any p (a +:+ b) = Str.any p a || Str.any p b.
Proof.
  induction a as [|c a IH]; [reflexivity|].
  change (String c a +:+ b) with (String c (a +:+ b)).
  cbn [Str.any]. now rewrite IH, orb_assoc.
Qed.

Lemma escape_char_no_markup c : Str.any markup_char (escape_char c) = false.
Proof.
  unfold escape_char. repeat case_bool_decide; try (vm_compute; reflexivity).
  cbn [Str.any]. unfold markup_char.
  rewrite !bool_decide_eq_false_2 by assumption. reflexivity.
Qed.

Lemma escape_char_plain c :
  escaped_char c = false -> escape_char c = String c EmptyString.
Proof.
  unfold escaped_char, markup_char, escape_char. intros H.
  repeat (apply orb_false_iff in H as [H ?]).
  now repeat case_bool_decide.
Qed.

(** X19. The output of [escapeHtml] holds none of the characters [<], [>],
    apostrophe and quotation mark, and a string without the five replaced
    characters is returned unchanged. *)
Theorem escapeHtml_no_markup s :
  Str.any markup_char (escapeHtml s) = false /\
  (Str.any escaped_char s = false -> escapeHtml s = s).
Proof.
  split.
  - induction s as [|c s IH]; [reflexivity|].
    cbn [escapeHtml]. now rewrite any_app, escape_char_no_markup, IH.
  - induction s as [|c s IH]; [reflexivity|].
    cbn [Str.any escapeHtml]. intros H. apply orb_false_iff in H as [Hc H].
    now rewrite (escape_char_plain c Hc), (IH H).
Qed.

Lemma escape_char_head c :
  exists r, escape_char c = String (if escaped_char c then "&"%char else c) r
            /\ (escaped_char c = false -> r = EmptyString).
Proof.
  unfold escape_char, escaped_char, markup_char.
  repeat case_bool_decide; subst; eexists; split; try reflexivity;
    try discriminate; try easy.
Qed.

Lemma escape_char_inj c1 c2 e1 e2 :
  escape_char c1 +:+ e1 = escape_char c2 +:+ e2 -> c1 = c2 /\ e1 = e2.
Proof.
  unfold escape_char.
  repeat case_bool_decide; subst; cbn [String.append]; intros Heq;
    try (injection Heq; intros; subst; now split);
    try discriminate Heq; try congruence.
Qed.

(** X20. [escapeHtml] loses nothing: two strings with the same escaped
    form are the same string. *)
Theorem escapeHtml_injective s1 s2 :
  escapeHtml s1 = escapeHtml s2 -> s1 = s2.
Proof.
  revert s2. induction s1 as [|c1 s1 IH]; intros [|c2 s2]; cbn [escapeHtml].
  - reflexivity.
  - intros H. destruct (escape_char_head c2) as (r & E & _).
    rewrite E in H. discriminate.
  - intros H. destruct (escape_char_head c1) as (r & E & _).
    rewrite E in H. discriminate.
  - intros H. destruct (escape_char_inj _ _ _ _ H) as [-> H'].
    now rewrite (IH _ H').
Qed.

Lemma escapeHtml_injective_witness :
  escapeHtml "R&D <b>" = "R&amp;D &lt;b&gt;" /\ "R&D <b>" = "R&D <b>".
Proof.
  split; [vm_compute; reflexivity|].
  exact (escapeHtml_injective "R&D <b>" "R&D <b>" eq_refl).
Defined.

(* ===================================================================== *)
(** ** Tokens of a page                                                  *)
(* ===================================================================== *)

Lemma trimEnd_idem s : Str.trimEnd (Str.trimEnd s) = Str.trimEnd s.
Proof.
  induction s as [|c s IH]; [reflexivity|]. cbn [Str.trimEnd].
  destruct (Chr.is_space c && Str.is_empty (Str.trimEnd s)) eqn:E;
    [reflexivity|].
  cbn [Str.trimEnd]. now rewrite IH, E.
Qed.

Lemma trim_idem s : Str.trim (Str.trim s) = Str.trim s.
Proof.
  unfold Str.trim, Str.trimStart.
  destruct (skip_ws_head s) as [E|(c & r & E & Hc)]; rewrite E.
  - reflexivity.
  - cbn [Str.trimEnd]. rewrite Hc. cbn [andb Str.skip_ws]. rewrite Hc.
    cbn [Str.trimEnd]. rewrite Hc. cbn [andb]. now rewrite trimEnd_idem.
Qed.

(** X22. Every token of a page comes from one of its text items, keeps the
    position of that item, and carries its text trimmed; the text of a
    token is never empty and has no white space left at either end. *)
Theorem page_items_trimmed tc t :
  t ∈ page_items tc ->
  t_str t <> "" /\ Str.trim (t_str t) = t_str t /\
  exists it, it ∈ tc /\
             t = mkToken (Str.trim (it_str it)) (it_e it) (it_f it)
                         (it_width it) (it_height it).
Proof.
  unfold page_items. intros H.
  apply list_elem_of_In, List.filter_In in H as [Hin Hne].
  apply List.in_map_iff in Hin as (it & <- & Hit). cbn [t_str] in *.
  split.
  - intros E. rewrite E in Hne. discriminate.
  - split; [apply trim_idem|]. exists it. split; [|reflexivity].
    now apply list_elem_of_In.
Qed.

Lemma page_items_trimmed_witness :
  mkToken "SHIFT B" 10 680 30 8
    ∈ page_items [mkTextItem "  SHIFT B " 10 680 30 8;
                  mkTextItem "   " 50 680 3 8] /\
  "SHIFT B" <> "" /\ Str.trim "SHIFT B" = "SHIFT B".
Proof.
  assert (H : mkToken "SHIFT B" 10 680 30 8
                ∈ page_items [mkTextItem "  SHIFT B " 10 680 30 8;
                              mkTextItem "   " 50 680 3 8]).
  { vm_compute. apply list_elem_of_here. }
  split; [exact H|].
  destruct (page_items_trimmed _ _ H) as (H1 & H2 & _).
  split; [exact H1|exact H2].
Defined.

Lemma matched_month_has_number_witness :
  Re.month_year_match "Roster for march 2025" = Some ("march", "2025") /\
  exists m, monthNameToNumber "march" = Some m /\ 1 <= m <= 12.
Proof.
  assert (H : Re.month_year_match "Roster for march 2025"
              = Some ("march", "2025")) by (vm_compute; reflexivity).
  split; [exact H|].
  exact (matched_month_has_number "Roster for march 2025" "march" "2025" H).
Defined.

Example escapeHtml_samples :
  escapeHtml "R&D <b>it's</b>" = "R&amp;D &lt;b&gt;it&#39;s&lt;/b&gt;" /\
  escapeHtml (String "034"%char "x") = "&quot;x" /\
  Chr.code "039"%char = 39%N /\ Chr.code "034"%char = 34%N /\
  pad2 3 = "03" /\ pad2 12 = "12" /\ pad2 123 = "123".
Proof. repeat split; vm_compute; reflexivity. Qed.

Example render_groups_sample :
  let r := render_groups 1
             (res_employees
                (parseSchedulePDF 2026 10 [sample_page1; sample_page2])) in
  map fst (byShift r) = ["B"; "Unknown"] /\
  workingNames r = ["JANE DOE"] /\ offCount r = 1%nat /\
  absentCount r = 0%nat /\
  offDays (mkEmployee "JOHN SMITH" "B" {[ "1" := "FG" ]}) 30 = [1].
Proof. repeat split; vm_compute; reflexivity. Qed.

(* ===================================================================== *)
(** ** White space around a text                                         *)
(* ===================================================================== *)

Lemma skip_ws_collapse b s :
  Str.skip_ws (Str.collapse_from b s) = Str.collapse_from false (Str.skip_ws s).
Proof.
  revert b. induction s as [|c s IH]; intros b; [reflexivity|].
  cbn [Str.collapse_from Str.skip_ws]. destruct (Chr.is_space c) eqn:Hc.
  - destruct b; [apply IH|]. cbn [Str.skip_ws].
    replace (Chr.is_space " ") with true by reflexivity. apply IH.
  - cbn [Str.skip_ws Str.collapse_from]. now rewrite Hc.
Qed.

Lemma trimEnd_collapse b s :
  Str.trimEnd (Str.collapse_from b (Str.trimEnd s))
  = Str.trimEnd (Str.collapse_from b s).
Proof.
  revert b. induction s as [|c s IH]; intros b; [reflexivity|].
  cbn [Str.trimEnd].
  destruct (Chr.is_space c) eqn:Hc; cbn [andb].
  - destruct (Str.is_empty (Str.trimEnd s)) eqn:He.
    + apply is_empty_true in He.
      assert (E : Str.trimEnd (Str.collapse_from true s) = "").
      { rewrite <- IH, He. reflexivity. }
      cbn [Str.collapse_from]. rewrite Hc.
      destruct b; [now rewrite E|].
      cbn [Str.trimEnd]. rewrite E. reflexivity.
    + cbn [Str.collapse_from]. rewrite Hc.
      destruct b; [apply IH|]. cbn [Str.trimEnd]. now rewrite IH.
  - cbn [Str.collapse_from]. rewrite Hc. cbn [Str.trimEnd]. rewrite Hc.
    cbn [andb]. now rewrite IH.
Qed.

Lemma skip_ws_trim s : Str.skip_ws (Str.trim s) = Str.trim s.
Proof.
  unfold Str.trim, Str.trimStart.
  destruct (skip_ws_head s) as [E|(c & r & E & Hc)]; rewrite E.
  - reflexivity.
  - cbn [Str.trimEnd]. rewrite Hc. cbn [andb Str.skip_ws]. now rewrite Hc.
Qed.

Lemma normal_form_trim s :
  Str.trim (Str.collapse_ws (Str.trim s)) = Str.trim (Str.collapse_ws s).
Proof.
  unfold Str.trim at 1 3, Str.trimStart, Str.collapse_ws.
  rewrite !skip_ws_collapse, skip_ws_trim.
  unfold Str.trim, Str.trimStart. apply trimEnd_collapse.
Qed.

(** X23. White space before or after a text never changes what the row
    tests and cleanups answer: label detection, the noise test, the name
    test, name cleanup, code normalization and classification give the
    same on the trimmed text as on the text. *)
Theorem surrounding_space_ignored s :
  detectShiftLabel (Str.trim s) = detectShiftLabel s /\
  isNonEmployeeLine (Str.trim s) = isNonEmployeeLine s /\
  looksLikeEmployeeName (Str.trim s) = looksLikeEmployeeName s /\
  cleanEmployeeName (Str.trim s) = cleanEmployeeName s /\
  normalizeCode (Str.trim s) = normalizeCode s /\
  classify (Str.trim s) = classify s.
Proof.
  repeat split.
  - unfold detectShiftLabel. now rewrite normal_form_trim.
  - unfold isNonEmployeeLine. now rewrite trim_upper, trim_idem, <- trim_upper.
  - unfold looksLikeEmployeeName. now rewrite trim_idem.
  - unfold cleanEmployeeName. now rewrite normal_form_trim.
  - unfold normalizeCode. now rewrite trim_idem.
  - unfold classify. now rewrite trim_idem.
Qed.

Lemma same_line_heights_close_witness :
  map_get 680 (groupByLine [mkToken "JOHN" 10 679 20 8;
                            mkToken "FG" 120 680 10 8])
  = Some [mkToken "JOHN" 10 679 20 8; mkToken "FG" 120 680 10 8] /\
  680 mod 2 = 0 /\ 680 - 1 <= 679 <= 680 /\ Z.abs (679 - 680) <= 1.
Proof.
  assert (H : map_get 680 (groupByLine [mkToken "JOHN" 10 679 20 8;
                                        mkToken "FG" 120 680 10 8])
              = Some [mkToken "JOHN" 10 679 20 8; mkToken "FG" 120 680 10 8])
    by (vm_compute; reflexivity).
  split; [exact H|].
  apply (same_line_heights_close _ _ _ (mkToken "JOHN" 10 679 20 8)
           (mkToken "FG" 120 680 10 8) H).
  - apply list_elem_of_here.
  - apply list_elem_of_further, list_elem_of_here.
Defined.
